(** * Component Analyzer: a shallow embedding of [app.py]

    The first part follows the script top to bottom:
    - [Py]: exceptions;
    - [Text]: the string operations the script applies to cells and tokens
      ([str.strip], [str.upper], [str.split(',')], [str.startswith]) and the
      three regular expressions it builds from the configured prefixes;
    - [Config]: the configured prefixes;
    - [Excel]: the row expansion loop and the spreadsheet counter;
    - [Pdf]: [extract_components_from_pdf] with its two guarded fallbacks;
    - [Analysis]: the condition sets, [filter_components],
      [highlight_components] and the report sheets;
    - [Run]: the life cycle of the files one execution of the script creates;
    - [Frontend]: the check of the uploads, the prefix field, the summary;
    - [Layout]: the widths of the report's columns.
    The second part states and proves the properties of the design document,
    claim by claim (C1 to C10), each where the script's code comes up, and
    then further properties of the script itself (X1 to X25).

    Sets are [gset string], counters [gmap string nat]; a statement that can
    raise returns a [Py.result]; the function that mutates a list and talks
    to the operator is a state transformer over that list and a trace.

    Text is modelled as Rocq strings of 8-bit characters; the script's
    behaviour on characters outside ASCII (Unicode case mapping and Unicode
    white space) is outside the model.  The configured prefixes are spliced
    into the regular expressions unescaped; the matchers below read a prefix
    as a literal, which is what the regular expression does for a prefix made
    of letters and digits only ([Text.literal_prefix]).  With any other
    prefix the patterns of the script can match otherwise, or be refused by
    the pattern compiler, which raises: the properties of the matchers and of
    the extraction are stated for prefixes of letters and digits
    ([configured]).  What the reader makes of the written spreadsheet is the
    reader's own; [Excel.excel_side_read] takes it as given.  The statements
    outside every [try] that can end an execution have their place in
    [Run.script]. *)

From Stdlib Require Import String Ascii List Bool Arith ZArith Lia Floats.
From stdpp Require Import base option list sorting gmap strings pretty.

Local Open Scope string_scope.
Local Open Scope list_scope.

(** ** Exceptions

    A computation that may raise returns a [result]; the exceptions are the
    ones the modelled lines can raise. *)

Module Py.

Inductive exn : Type :=
  | AttributeError            (* a method looked up on a value that lacks it *)
  | KeyError                  (* a label that is not in the index *)
  | LibraryError (msg : string). (* raised inside an external library *)

Inductive result (A : Type) : Type :=
  | Ok (a : A)
  | Raise (e : exn).
Arguments Ok {A} a.
Arguments Raise {A} e.

(** Sequencing stops at the first exception. *)
Global Instance result_ret : MRet result := fun A a => Ok a.
Global Instance result_bind : MBind result := fun A B k m =>
  match m with
  | Ok a => k a
  | Raise e => Raise e
  end.

Global Instance result_fmap : FMap result := fun A B f m =>
  match m with
  | Ok a => Ok (f a)
  | Raise e => Raise e
  end.

(** [str(e)] *)
Definition message (e : exn) : string :=
  match e with
  | AttributeError => "object has no attribute"
  | KeyError => "label not found"
  | LibraryError msg => msg
  end.

End Py.

(** ** Strings and patterns *)

Module Text.

Definition in_range (lo hi : nat) (c : ascii) : bool :=
  let n := nat_of_ascii c in Nat.leb lo n && Nat.leb n hi.

(** [[0-9]], [[A-Z]] and [[a-z]] *)
Definition is_digit : ascii -> bool := in_range 48 57.
Definition is_upper : ascii -> bool := in_range 65 90.
Definition is_lower : ascii -> bool := in_range 97 122.

(** [[A-Za-z0-9]] *)
Definition is_alnum (c : ascii) : bool := is_upper c || is_lower c || is_digit c.

(** White space of [str.strip()] within ASCII: TAB, LF, VT, FF, CR, the four
    separators FS, GS, RS, US and the space. *)
Definition is_space (c : ascii) : bool :=
  in_range 9 13 c || in_range 28 31 c || in_range 32 32 c.

Definition upper_char (c : ascii) : ascii :=
  if is_lower c then ascii_of_nat (nat_of_ascii c - 32) else c.

(** [s.upper()] *)
Fixpoint upper (s : string) : string :=
  match s with
  | EmptyString => EmptyString
  | String c s' => String (upper_char c) (upper s')
  end.

Fixpoint all_chars (p : ascii -> bool) (s : string) : bool :=
  match s with
  | EmptyString => true
  | String c s' => p c && all_chars p s'
  end.

Fixpoint keep_chars (p : ascii -> bool) (s : string) : string :=
  match s with
  | EmptyString => EmptyString
  | String c s' => if p c then String c (keep_chars p s') else keep_chars p s'
  end.

Fixpoint lstrip (s : string) : string :=
  match s with
  | EmptyString => EmptyString
  | String c s' => if is_space c then lstrip s' else s
  end.

Fixpoint rstrip (s : string) : string :=
  match s with
  | EmptyString => EmptyString
  | String c s' =>
      match rstrip s' with
      | EmptyString => if is_space c then EmptyString else String c EmptyString
      | r => String c r
      end
  end.

(** [s.strip()] *)
Definition strip (s : string) : string := rstrip (lstrip s).

(** Truth value of a string: [if s] *)
Definition truthy (s : string) : bool :=
  match s with EmptyString => false | _ => true end.

(** [s.split(',')] *)
Fixpoint split_comma (s : string) : list string :=
  match s with
  | EmptyString => [EmptyString]
  | String c s' =>
      if Ascii.eqb c ","%char then EmptyString :: split_comma s'
      else match split_comma s' with
           | [] => [String c EmptyString]
           | w :: ws => String c w :: ws
           end
  end.

(** [[comp.strip().upper() for comp in s.split(',') if comp.strip()]] *)
Definition split_components (s : string) : list string :=
  map (fun comp => upper (strip comp))
      (List.filter (fun comp => truthy (strip comp)) (split_comma s)).

(** [re.sub(r'[^A-Za-z0-9]', '', raw.strip()).upper()] *)
Definition normalize (raw : string) : string :=
  upper (keep_chars is_alnum (strip raw)).

(** [word.startswith(prefix)] *)
Definition startswith (word pre : string) : bool := String.prefix pre word.

(** The remainder of [word] after the literal [pre], if [word] starts with it. *)
Fixpoint after_prefix (pre word : string) : option string :=
  match pre, word with
  | EmptyString, _ => Some word
  | String a pre', String b word' =>
      if Ascii.eqb a b then after_prefix pre' word' else None
  | String _ _, EmptyString => None
  end.

(** [[0-9]+] against a whole string *)
Definition digits1 (s : string) : bool := truthy s && all_chars is_digit s.

(** [$] without [re.MULTILINE] also matches just before a line feed that
    ends the string: the subject with one final line feed removed. *)
Fixpoint drop_final_newline (s : string) : string :=
  match s with
  | EmptyString => EmptyString
  | String c EmptyString => if Ascii.eqb c "010"%char then EmptyString else s
  | String c s' => String c (drop_final_newline s')
  end.

(** [pre + r'[0-9]+'] against a whole string *)
Definition prefix_digits (pre word : string) : bool :=
  match after_prefix pre word with
  | Some rest => digits1 rest
  | None => false
  end.

(** [[A-Z][0-9]+] against a whole string *)
Definition letter_digits (word : string) : bool :=
  match word with
  | String c rest => is_upper c && digits1 rest
  | EmptyString => false
  end.

(** [re.match(r'^' + prefix + r'[0-9]+$', word)], for a prefix the pattern
    reads as itself *)
Definition re_match_prefix (pre word : string) : bool :=
  prefix_digits pre (drop_final_newline word).

(** The alternatives of ['|'.join(prefixes)]: joining no prefix gives the
    empty pattern, which is one alternative matching the empty string. *)
Definition alternatives (prefixes : list string) : list string :=
  match prefixes with
  | [] => [EmptyString]
  | _ => prefixes
  end.

(** [re.match(r'^(?:[A-Z][0-9]+|(?:' + '|'.join(prefixes) + r')[0-9]+)$', word)],
    for prefixes the pattern reads as themselves *)
Definition re_match_component (prefixes : list string) (word : string) : bool :=
  let w := drop_final_newline word in
  letter_digits w || existsb (fun pre => prefix_digits pre w) (alternatives prefixes).

(** A prefix the regular expressions read as itself. *)
Definition literal_prefix (pre : string) : bool := all_chars is_alnum pre.

(** Greedy [[0-9]*] at the start of [s]: the longest run of digits. *)
Fixpoint take_digits (s : string) : string :=
  match s with
  | EmptyString => EmptyString
  | String c s' => if is_digit c then String c (take_digits s') else EmptyString
  end.

(** [[0-9]+] at the start of [s] *)
Definition digits_here (s : string) : option string :=
  match take_digits s with
  | EmptyString => None
  | d => Some d
  end.

(** [[A-Z][0-9]+] at the start of [s] *)
Definition letter_digits_here (s : string) : option string :=
  match s with
  | String c s' => if is_upper c then String c <$> digits_here s' else None
  | EmptyString => None
  end.

(** [pre + r'[0-9]+'] at the start of [s] *)
Definition prefix_digits_here (pre s : string) : option string :=
  rest ← after_prefix pre s; String.append pre <$> digits_here rest.

(** The alternation tries its branches from left to right. *)
Fixpoint first_match (pres : list string) (s : string) : option string :=
  match pres with
  | [] => None
  | pre :: pres' =>
      match prefix_digits_here pre s with
      | Some w => Some w
      | None => first_match pres' s
      end
  end.

(** [(?:[A-Z][0-9]+|(?:' + '|'.join(multi) + r')[0-9]+)] at the start of [s] *)
Definition match_here (multi : list string) (s : string) : option string :=
  match letter_digits_here s with
  | Some w => Some w
  | None => first_match (alternatives multi) s
  end.

(** The scan of [re.findall]: at each position try the pattern; after a match
    resume behind it ([skip] counts the characters of the last match still to
    pass), otherwise move one character on. *)
Fixpoint findall_from (multi : list string) (skip : nat) (s : string) : list string :=
  match s with
  | EmptyString => []
  | String _ s' =>
      match skip with
      | S k => findall_from multi k s'
      | O =>
          match match_here multi s with
          | Some w => w :: findall_from multi (String.length w - 1) s'
          | None => findall_from multi 0 s'
          end
      end
  end.

(** [re.findall(r'(?:[A-Z][0-9]+|(?:' + '|'.join(multi) + r')[0-9]+)', text)],
    for prefixes the pattern reads as themselves *)
Definition findall (multi : list string) (text : string) : list string :=
  findall_from multi 0 text.

(** [sorted(...)] of strings: ascending in the order of the characters' codes. *)
Definition sorted (l : list string) : list string := merge_sort String.le l.

End Text.


(** ** The configured prefixes (lines 85-100) *)

Module Config.
Import Text.

Definition default_prefixes : list string :=
  ["C"; "R"; "D"; "Q"; "U"; "L"; "Z"; "FB"; "SWITCH"; "MOV"; "LED"; "TVS"; "ESD";
   "XT"; "OPD"; "OPQ"; "LCD"; "CN"].

(** Lines 91-97: the prefixes typed by the operator, or the defaults when the
    field is empty or holds no prefix. *)
Definition valid_prefixes_of (prefixes_input : string) : list string :=
  if truthy prefixes_input then
    match split_components prefixes_input with
    | [] => default_prefixes
    | typed => typed
    end
  else default_prefixes.

End Config.

(** ** The spreadsheet side (lines 106-149) *)

Module Excel.
Import Py Text.

(** A cell as [pandas] hands it over: missing, text, or a number. *)
Inductive cell : Type :=
  | NaN
  | Str (s : string)
  | Num (n : Z).

(** A row is a labelled series: column label and value, in column order. *)
Definition row : Type := list (string * cell).

(** [row[col]] *)
Fixpoint row_get (r : row) (col : string) : result cell :=
  match r with
  | [] => Raise KeyError
  | (label, v) :: r' => if String.eqb label col then Ok v else row_get r' col
  end.

(** [row[col] = v]: overwrite the value under an existing label, otherwise
    enlarge the series at its end. *)
Fixpoint row_set (r : row) (col : string) (v : cell) : row :=
  match r with
  | [] => [(col, v)]
  | (label, x) :: r' =>
      if String.eqb label col then (label, v) :: r' else (label, x) :: row_set r' col v
  end.

(** The body of the loop over [component_columns] for one cell:
    [if pd.notna(c) and c.strip(): comps = [... for comp in str(c).split(',') ...]].
    A number is not missing and has no [strip]. *)
Definition cell_components (c : cell) : result (list string) :=
  match c with
  | NaN => Ok []
  | Str s => Ok (if truthy (strip s) then split_components s else [])
  | Num _ => Raise AttributeError
  end.

(** [for col in component_columns: ... components.update(comps)] *)
Fixpoint row_components (component_columns : list string) (r : row)
    (components : gset string) : result (gset string) :=
  match component_columns with
  | [] => Ok components
  | col :: cols =>
      c ← row_get r col;
      comps ← cell_components c;
      row_components cols r (components ∪ list_to_set comps)
  end.

Definition merged_label : string := "Merged Components".

(** One turn of [for _, row in df.iterrows()]: the rows appended to
    [expanded_rows]. *)
Definition expand_row (component_columns : list string) (r : row) : result (list row) :=
  components ← row_components component_columns r ∅;
  Ok (if decide (components = ∅)
      then [row_set r merged_label (Str "")]
      else map (fun component => row_set r merged_label (Str component))
               (sorted (elements components))).

(** The whole loop: [expanded_rows]. *)
Fixpoint expand_rows (component_columns : list string) (df : list row) : result (list row) :=
  match df with
  | [] => Ok []
  | r :: df' =>
      new_rows ← expand_row component_columns r;
      rest ← expand_rows component_columns df';
      Ok (new_rows ++ rest)
  end.

(** The strings [pd.read_excel] takes for a missing value unless told
    otherwise; the empty string is among them. *)
Definition na_values : list string :=
  [""; "#N/A"; "#N/A N/A"; "#NA"; "-1.#IND"; "-1.#QNAN"; "-NaN"; "-nan"; "1.#IND";
   "1.#QNAN"; "<NA>"; "N/A"; "NA"; "NULL"; "NaN"; "None"; "n/a"; "nan"; "null"].

Definition is_na (s : string) : bool := existsb (String.eqb s) na_values.

(** Lines 125-127: [pd.DataFrame(expanded_rows)] and [new_df[columns]].  The
    rows carry the columns of the input and 'Merged Components', and the
    selection keeps them; made of no row at all the frame has no column, and
    the selection raises. *)
Definition new_frame (expanded_rows : list row) : result (list row) :=
  match expanded_rows with
  | [] => Raise KeyError
  | _ => Ok expanded_rows
  end.

(** The column 'Merged Components' of a frame. *)
Fixpoint merged_column (new_df : list row) : result (list cell) :=
  match new_df with
  | [] => Ok []
  | r :: rows =>
      c ← row_get r merged_label;
      rest ← merged_column rows;
      Ok (c :: rest)
  end.

(** Lines 106-131: the column 'Merged Components' as it is written to the
    file. *)
Definition written_column (component_columns : list string) (df : list row)
    : result (list cell) :=
  expanded_rows ← expand_rows component_columns df;
  new_df ← new_frame expanded_rows;
  merged_column new_df.

(** The frame is written to a file and read again (lines 131 and 138): a
    text cell that spells a missing value comes back missing.  This is the
    reader's doing cell by cell; a column in which every text is a numeral
    comes back as numbers, and a text that begins with [=] is written as a
    formula: [read_back] does not follow the reader there, [excel_side_read]
    below leaves the reading open. *)
Definition read_back (c : cell) : cell :=
  match c with
  | Str s => if is_na s then NaN else c
  | _ => c
  end.

(** [df['Merged Components'].dropna().astype(str)]; the column holds text
    or nothing, the loop above wrote it. *)
Fixpoint merged_items (expanded_rows : list row) : result (list string) :=
  match expanded_rows with
  | [] => Ok []
  | r :: rows =>
      c ← row_get r merged_label;
      rest ← merged_items rows;
      Ok (match read_back c with
          | Str s => s :: rest
          | _ => rest
          end)
  end.

(** [Counter.update(iterable)]: one more for each element. *)
Definition counter_add (counts : gmap string nat) (k : string) : gmap string nat :=
  <[k := S (default 0 (counts !! k))]> counts.

Definition counter_update (counts : gmap string nat) (l : list string) : gmap string nat :=
  foldl counter_add counts l.

(** [counts.get(k, 0)] *)
Definition counter_get (counts : gmap string nat) (k : string) : nat :=
  default 0 (counts !! k).

(** Lines 144-149: [excel_components] and [excel_counts]. *)
Fixpoint count_items (items : list string)
    (acc : gset string * gmap string nat) : gset string * gmap string nat :=
  match items with
  | [] => acc
  | item :: items' =>
      let components := split_components item in
      count_items items' (acc.1 ∪ list_to_set components, counter_update acc.2 components)
  end.

(** From the uploaded frame to [(excel_components, excel_counts)], the file
    read as [read_back] has it. *)
Definition excel_side (component_columns : list string) (df : list row)
    : result (gset string * gmap string nat) :=
  expanded_rows ← expand_rows component_columns df;
  new_df ← new_frame expanded_rows;
  items ← merged_items new_df;
  Ok (count_items items (∅, ∅)).

(** Lines 131-149, the reading of the file left open: [read] takes the
    column as written to the strings of
    [df['Merged Components'].dropna().astype(str)] after the file has been
    read again. *)
Definition excel_side_read (read : list cell -> list string)
    (component_columns : list string) (df : list row)
    : result (gset string * gmap string nat) :=
  column ← written_column component_columns df;
  Ok (count_items (read column) (∅, ∅)).

End Excel.

(** ** The document side: [extract_components_from_pdf] (lines 152-188) *)

Module Pdf.
Import Py Text.

(** An entry of [page.get_text("words")]: the corners of the bounding region
    and the text (the block, line and word numbers that follow are not read). *)
Record word_tuple : Type := { x0 : float; y0 : float; x1 : float; y1 : float; text : string }.

(** [(word, page_num, word_tuple)], the last component [None] in the fallbacks. *)
Definition observation : Type := string * nat * option word_tuple.

Definition single_letter_prefixes (valid_prefixes : list string) : list string :=
  List.filter (fun p => Nat.eqb (String.length p) 1) valid_prefixes.

Definition multi_letter_prefixes (valid_prefixes : list string) : list string :=
  List.filter (fun p => Nat.ltb 1 (String.length p)) valid_prefixes.

(** What the external libraries answer for one document: the text layer page
    by page; the rasterizer's images, each with what the recognizer makes of
    it; the pages of the second text extractor, each with its text if any.
    The rasterizer, the recognizer and the second extractor may raise. *)
Record document : Type := {
  doc_pages : list (list word_tuple);
  doc_images : result (list (result string));
  doc_plumber : result (list (result (option string)))
}.

(** What the operator can observe besides the returned list. *)
Inductive event : Type :=
  | Rasterize                 (* [convert_from_path(doc.name)] was called *)
  | OpenAlternate             (* [pdfplumber.open(doc.name)] was called *)
  | Warning (msg : string).   (* [st.warning(msg)] *)

(** The function's local list [components] and the events so far. *)
Record state : Type := { components : list observation; trace : list event }.

(** A statement: it changes the state and ends normally or by raising. *)
Definition M (A : Type) : Type := state -> state * result A.

Global Instance M_ret : MRet M := fun A a s => (s, Ok a).
Global Instance M_bind : MBind M := fun A B k m s =>
  match m s with
  | (s', Ok a) => k a s'
  | (s', Raise e) => (s', Raise e)
  end.

Definition emit (e : event) : M unit :=
  fun s => ({| components := components s; trace := trace s ++ [e] |}, Ok tt).

(** [components.append(o)] *)
Definition append (o : observation) : M unit :=
  fun s => ({| components := components s ++ [o]; trace := trace s |}, Ok tt).

Definition get_components : M (list observation) := fun s => (s, Ok (components s)).

(** The answer of an external call. *)
Definition external {A} (r : result A) : M A := fun s => (s, r).

(** [try: body except Exception as e: handler(e)] *)
Definition try_except (body : M unit) (handler : exn -> M unit) : M unit :=
  fun s =>
    match body s with
    | (s', Ok tt) => (s', Ok tt)
    | (s', Raise e) => handler e s'
    end.

(** [for page_num, x in enumerate(l, start): body] *)
Fixpoint for_enumerate {A} (l : list A) (page_num : nat) (body : nat -> A -> M unit) : M unit :=
  match l with
  | [] => mret tt
  | x :: l' => body page_num x;; for_enumerate l' (S page_num) body
  end.

(** [for x in l: body] *)
Fixpoint for_each {A} (l : list A) (body : A -> M unit) : M unit :=
  match l with
  | [] => mret tt
  | x :: l' => body x;; for_each l' body
  end.

(** [if c: body] *)
Definition when (c : bool) (body : M unit) : M unit := if c then body else mret tt.

(** [not components] *)
Definition is_empty {A} (l : list A) : bool :=
  match l with [] => true | _ => false end.

Section Extract.
Variable valid_prefixes : list string.

(** Lines 158-162: the test a word of the text layer has to pass. *)
Definition keep_word (word : string) : bool :=
  if existsb (startswith word) valid_prefixes then
    if existsb (fun p => re_match_prefix p word) (single_letter_prefixes valid_prefixes) then true
    else if existsb (fun p => re_match_prefix p word) (multi_letter_prefixes valid_prefixes) then true
    else false
  else false.

(** Lines 154-162, which no [try] encloses: with prefixes the patterns read
    as themselves nothing here raises. *)
Definition text_layer (doc : document) : M unit :=
  for_enumerate (doc_pages doc) 1 (fun page_num words =>
    for_each words (fun word_tuple =>
      let word := normalize (text word_tuple) in
      when (keep_word word) (append (word, page_num, Some word_tuple)))).

(** Lines 170-172 and 182-184: the words of a page text the fallbacks keep. *)
Definition scan_text (page_num : nat) (text : string) : M unit :=
  for_each (findall (multi_letter_prefixes valid_prefixes) text) (fun word =>
    when (existsb (startswith word) valid_prefixes) (append (word, page_num, None))).

(** Lines 167-172: the body of the first fallback's [try]. *)
Definition ocr_body (doc : document) : M unit :=
  emit Rasterize;;
  images ← external (doc_images doc);
  for_enumerate images 1 (fun page_num image =>
    recognized ← external image;
    scan_text page_num (upper recognized)).

(** Lines 166-174 *)
Definition ocr (doc : document) : M unit :=
  try_except (ocr_body doc) (fun e => emit (Warning ("OCR error: " ++ message e))).

(** Line 181: [page.extract_text().upper() if page.extract_text() else ""] *)
Definition plumber_text (extracted : option string) : string :=
  match extracted with
  | Some t => if truthy t then upper t else EmptyString
  | None => EmptyString
  end.

(** Lines 179-184: the body of the second fallback's [try]. *)
Definition pdfplumber_body (doc : document) : M unit :=
  emit OpenAlternate;;
  pages ← external (doc_plumber doc);
  for_enumerate pages 1 (fun page_num page =>
    extracted ← external page;
    scan_text page_num (plumber_text extracted)).

(** Lines 178-186 *)
Definition pdfplumber (doc : document) : M unit :=
  try_except (pdfplumber_body doc)
             (fun e => emit (Warning ("pdfplumber error: " ++ message e))).

Definition extract_components_from_pdf (doc : document) : M (list observation) :=
  text_layer doc;;
  found ← get_components;
  when (is_empty found) (ocr doc);;
  found ← get_components;
  when (is_empty found) (pdfplumber doc);;
  get_components.

(** A call of the function: [components = []] and nothing observed yet. *)
Definition initial : state := {| components := []; trace := [] |}.

Definition run_extract (doc : document) : state * result (list observation) :=
  extract_components_from_pdf doc initial.

End Extract.
End Pdf.

(** ** Conditions, markers and report (lines 198-319) *)

Module Analysis.
Import Text Excel Pdf.

(** [pdf_components] and [pdf_counts] (lines 199-200) *)
Definition pdf_words (pdf_components_list : list observation) : list string :=
  map (fun comp => comp.1.1) pdf_components_list.

Definition pdf_components_of (pdf_components_list : list observation) : gset string :=
  list_to_set (pdf_words pdf_components_list).

Definition pdf_counts_of (pdf_components_list : list observation) : gmap string nat :=
  counter_update ∅ (pdf_words pdf_components_list).

(** [{comp for comp, count in counts.items() if count > 1}] *)
Definition repeated (counts : gmap string nat) : gset string :=
  dom (filter (fun kv => 1 < kv.2) counts).

(** Lines 208-209 *)
Definition filter_components (valid_prefixes : list string) (components : gset string)
    : gset string :=
  filter (fun comp => re_match_component valid_prefixes (upper comp) = true) components.

(** What the analysis starts from: the configured prefixes, the observations
    of the document, and the items of the re-read column
    [df['Merged Components'].dropna().astype(str)]. *)
Record inputs : Type := {
  valid_prefixes : list string;
  pdf_components_list : list observation;
  excel_items : list string
}.

(** Lines 144-149 *)
Definition excel_components (i : inputs) : gset string := (count_items (excel_items i) (∅, ∅)).1.
Definition excel_counts (i : inputs) : gmap string nat := (count_items (excel_items i) (∅, ∅)).2.

Definition pdf_components (i : inputs) : gset string := pdf_components_of (pdf_components_list i).
Definition pdf_counts (i : inputs) : gmap string nat := pdf_counts_of (pdf_components_list i).

(** Lines 203-214: the four sets after [filter_components]. *)
Definition repeated_pdf (i : inputs) : gset string :=
  filter_components (valid_prefixes i) (repeated (pdf_counts i)).
Definition repeated_excel (i : inputs) : gset string :=
  filter_components (valid_prefixes i) (repeated (excel_counts i)).
Definition in_pdf_not_excel (i : inputs) : gset string :=
  filter_components (valid_prefixes i) (pdf_components i ∖ excel_components i).
Definition in_excel_not_pdf (i : inputs) : gset string :=
  filter_components (valid_prefixes i) (excel_components i ∖ pdf_components i).

(** Line 293 *)
Definition normal (i : inputs) : gset string :=
  (pdf_components i ∪ excel_components i)
    ∖ (repeated_pdf i ∪ repeated_excel i ∪ in_pdf_not_excel i ∪ in_excel_not_pdf i).

(** Colours as the triples the script writes. *)
Definition color : Type := nat * nat * nat.
Definition yellow : color := (1, 1, 0).
Definition blue : color := (0, 0, 1).
Definition red : color := (1, 0, 0).
Definition cyan : color := (0, 1, 1).
Definition green : color := (0, 1, 0).

(** Lines 228-237 *)
Definition marker_color (i : inputs) (word : string) : color :=
  if decide (word ∈ in_pdf_not_excel i) then yellow
  else if decide (word ∈ in_excel_not_pdf i) then blue
  else if decide (word ∈ repeated_pdf i) then red
  else if decide (word ∈ repeated_excel i) then cyan
  else green.

Record rect : Type := { rx0 : float; ry0 : float; rx1 : float; ry1 : float }.

(** Lines 222-226: the bounding region, two units wider on every side. *)
Definition marker_rect (t : word_tuple) : rect :=
  {| rx0 := x0 t - 2; ry0 := y0 t - 2; rx1 := x1 t + 2; ry1 := y1 t + 2 |}%float.

(** A highlight annotation on page [doc[page_index]]. *)
Record highlight : Type := {
  page_index : nat;
  region : rect;
  stroke : color;
  opacity : float
}.

(** Lines 217-242: the annotations added, in the order of the observations. *)
Definition highlight_components (i : inputs) : list highlight :=
  omap (fun comp : observation =>
          match comp with
          | (word, page_num, None) => None
          | (word, page_num, Some word_tuple) =>
              Some {| page_index := page_num - 1;
                      region := marker_rect word_tuple;
                      stroke := marker_color i word;
                      opacity := 0.5%float |}
          end)
       (pdf_components_list i).

Inductive condition_key : Type :=
  | key_repeated_pdf
  | key_repeated_excel
  | key_in_pdf_not_excel
  | key_in_excel_not_pdf
  | key_normal.

Global Instance condition_key_eq_dec : EqDecision condition_key.
Proof. solve_decision. Defined.

(** Lines 274-280: the dictionary [conditions], in insertion order. *)
Definition conditions : list (condition_key * (string * string * color)) :=
  [ (key_repeated_pdf, ("Repeated in PDF", "Red", red));
    (key_repeated_excel, ("Repeated in Excel", "Cyan", cyan));
    (key_in_pdf_not_excel, ("In PDF, not in Excel", "Yellow", yellow));
    (key_in_excel_not_pdf, ("In Excel, not in PDF", "Blue", blue));
    (key_normal, ("Normal", "Green", green)) ].

(** Lines 288-294 *)
Definition condition_components (i : inputs) (key : condition_key) : gset string :=
  match key with
  | key_repeated_pdf => repeated_pdf i
  | key_repeated_excel => repeated_excel i
  | key_in_pdf_not_excel => in_pdf_not_excel i
  | key_in_excel_not_pdf => in_excel_not_pdf i
  | key_normal => normal i
  end.

(** Lines 308-312 *)
Definition repeat_count (i : inputs) (key : condition_key) (comp : string) : nat :=
  match key with
  | key_repeated_pdf | key_in_pdf_not_excel => counter_get (pdf_counts i) comp
  | key_repeated_excel | key_in_excel_not_pdf => counter_get (excel_counts i) comp
  | key_normal => Nat.max (counter_get (pdf_counts i) comp) (counter_get (excel_counts i) comp)
  end.

(** A data row of a sheet: the four cells of lines 313-316. *)
Record report_row : Type := {
  row_condition : string;
  row_component : string;
  row_count : nat;
  row_color : string
}.

Record sheet : Type := {
  sheet_key : condition_key;
  title : string;
  headers : list string;
  rows : list report_row
}.

(** Lines 296-319: one sheet per entry of [conditions]. *)
Definition report (i : inputs) : list sheet :=
  map (fun '(key, (condition_name, color_name, _)) =>
         {| sheet_key := key;
            title := condition_name;
            headers := ["Condition"; "Component"; "Number of Times Repeated"; "Highlight Color"];
            rows := map (fun comp =>
                           {| row_condition := condition_name;
                              row_component := comp;
                              row_count := repeat_count i key comp;
                              row_color := color_name |})
                        (sorted (elements (condition_components i key))) |})
      conditions.

(** The identifiers listed on a sheet, and the sheets that list [comp]. *)
Definition listed (sh : sheet) : list string := map row_component (rows sh).

Definition sheets_listing (i : inputs) (comp : string) : list condition_key :=
  map sheet_key (List.filter (fun sh => bool_decide (comp ∈ listed sh)) (report i)).

End Analysis.

(** ** The files of one execution of the script (lines 52-364) *)

Module Run.

(** What the surroundings decide: the names of the temporary files, the base
    name of the upload, whether the button was pressed, which of the guarded
    file operations succeed, and which stretches of statements outside every
    [try] run to their end: the expansion of the rows and the new frame
    (lines 106-127; line 110 raises on a number in a selected column, line 127
    on a frame without rows), the analysis between opening and saving the
    document (lines 198-261; the patterns of lines 159-161 and 209 raise on a
    prefix the pattern compiler refuses), the building of the workbook
    (lines 272-331) and the summary with the download links (lines 339-357). *)
Record environment : Type := {
  tmp_excel : string;
  tmp_pdf : string;
  base_name : string;
  read_excel_ok : bool;
  process_pressed : bool;
  rows_expanded : bool;
  save_modified_ok : bool;
  read_modified_ok : bool;
  open_pdf_ok : bool;
  document_analysed : bool;
  save_pdf_ok : bool;
  workbook_built : bool;
  save_report_ok : bool;
  files_offered : bool
}.

Definition input_excel_file (env : environment) : string := tmp_excel env.
Definition input_pdf_file (env : environment) : string := tmp_pdf env.
Definition output_excel_file (env : environment) : string := base_name env ++ "_modified.xlsx".
Definition output_pdf_file (env : environment) : string := base_name env ++ "_combined.pdf".
Definition output_report_file (env : environment) : string := base_name env ++ "_detailed_report.xlsx".

(** How an execution ends: at the end of the script, after the processing
    block or without entering it, at an [st.stop()] with the error shown, or
    at an exception that no [try] catches. *)
Inductive ending : Type :=
  | Processed
  | Idle
  | Stopped (error : string)
  | Uncaught.

(** A statement acts on the set of files on disk; [inr] ends the script. *)
Definition step : Type := gset string -> gset string * (unit + ending).

Definition seq (a b : step) : step :=
  fun fs => match a fs with
            | (fs', inl tt) => b fs'
            | (fs', inr e) => (fs', inr e)
            end.
Infix ">>" := seq (at level 61, left associativity).

(** A file comes into being. *)
Definition create (path : string) : step := fun fs => ({[path]} ∪ fs, inl tt).

(** [os.unlink(path)] *)
Definition unlink (path : string) : step := fun fs => (fs ∖ {[path]}, inl tt).

(** [if os.path.exists(path): os.unlink(path)] *)
Definition unlink_if_exists (path : string) : step :=
  fun fs => if decide (path ∈ fs) then unlink path fs else (fs, inl tt).

(** [try: op except Exception as e: st.error(msg); st.stop()] *)
Definition guarded (ok : bool) (op : step) (msg : string) : step :=
  if ok then op else fun fs => (fs, inr (Stopped msg)).

Definition nothing : step := fun fs => (fs, inl tt).
Definition finish (e : ending) : step := fun fs => (fs, inr e).

(** Statements outside every [try]: they touch no file, and an exception
    among them ends the execution where it is raised. *)
Definition unguarded (ok : bool) : step := if ok then nothing else finish Uncaught.

Definition script (env : environment) : step :=
  create (input_excel_file env) >>                                              (* 53-55 *)
  create (input_pdf_file env) >>                                                (* 56-58 *)
  guarded (read_excel_ok env) nothing "Error reading Excel file" >>             (* 67-71 *)
  (if process_pressed env then nothing else finish Idle) >>                     (* 103 *)
  unguarded (rows_expanded env) >>                                              (* 106-127 *)
  guarded (save_modified_ok env) (create (output_excel_file env))
          "Error saving modified Excel file" >>                                 (* 130-134 *)
  guarded (read_modified_ok env) nothing "Error reading modified Excel file" >> (* 137-141 *)
  guarded (open_pdf_ok env) nothing "Error opening PDF file" >>                 (* 191-195 *)
  unguarded (document_analysed env) >>                                          (* 198-261 *)
  guarded (save_pdf_ok env) (create (output_pdf_file env)) "Error saving PDF" >> (* 264-269 *)
  unguarded (workbook_built env) >>                                             (* 272-331 *)
  guarded (save_report_ok env) (create (output_report_file env))
          "Error generating report" >>                                          (* 333-337 *)
  unguarded (files_offered env) >>                                              (* 339-357 *)
  unlink (input_excel_file env) >>                                              (* 360 *)
  unlink (input_pdf_file env) >>                                                (* 361 *)
  unlink_if_exists (output_excel_file env) >>                                   (* 362-364 *)
  unlink_if_exists (output_pdf_file env) >>
  unlink_if_exists (output_report_file env) >>
  finish Processed.

(** The files on disk and the ending of an execution started on [fs]. *)
Definition run (env : environment) (fs : gset string) : gset string * ending :=
  match script env fs with
  | (fs', inr e) => (fs', e)
  | (fs', inl tt) => (fs', Processed)
  end.

(** The files the execution makes for itself. *)
Definition own_files (env : environment) : list string :=
  [input_excel_file env; input_pdf_file env;
   output_excel_file env; output_pdf_file env; output_report_file env].

End Run.

(** ** The front end: uploads, the prefix field, the summary (lines 38-50, 85-90, 339-344) *)

Module Frontend.
Import Text Config Analysis.

Definition lower_char (c : ascii) : ascii :=
  if is_upper c then ascii_of_nat (nat_of_ascii c + 32) else c.

(** [s.lower()] *)
Fixpoint lower (s : string) : string :=
  match s with
  | EmptyString => EmptyString
  | String c s' => String (lower_char c) (lower s')
  end.

(** [s.endswith(suffix)] *)
Definition endswith (s suffix : string) : bool :=
  String.prefix (String.rev suffix) (String.rev s).

(** Lines 38-45; [file] is the name of the upload, if there is one.  The
    result is the returned value with the errors shown by [st.error]. *)
Definition validate_file (file : option string) (expected_ext : string) : bool * list string :=
  match file with
  | None => (false, [("Please upload a " ++ expected_ext ++ " file.")%string])
  | Some name =>
      if negb (endswith (lower name) expected_ext)
      then (false, [("File '" ++ name ++ "' must have " ++ expected_ext ++ " extension.")%string])
      else (true, [])
  end.

(** Line 49: [validate_file(excel_file, '.xlsx') and validate_file(pdf_file, '.pdf')];
    the second call is made only when the first returned [True]. *)
Definition validate_uploads (excel_file pdf_file : option string) : bool * list string :=
  let first := validate_file excel_file ".xlsx" in
  if first.1 then
    let second := validate_file pdf_file ".pdf" in (second.1, first.2 ++ second.2)
  else (false, first.2).

(** [','.join(l)] *)
Fixpoint join_comma (l : list string) : string :=
  match l with
  | [] => EmptyString
  | [x] => x
  | x :: l' => x ++ "," ++ join_comma l'
  end.

(** Line 88: the value the prefix field starts with. *)
Definition prefixes_field_default : string := join_comma default_prefixes.

(** Lines 341-344: the lines of the summary on screen. *)
Definition summary_line (label : string) (n : nat) : string :=
  "**" ++ label ++ "**: " ++ pretty n ++ " components".

Definition summary (i : inputs) : list string :=
  [ summary_line "Repeated in PDF" (size (repeated_pdf i));
    summary_line "Repeated in Excel" (size (repeated_excel i));
    summary_line "In PDF, not in Excel" (size (in_pdf_not_excel i));
    summary_line "In Excel, not in PDF" (size (in_excel_not_pdf i)) ].

End Frontend.

(** ** The widths of the report's columns (lines 321-331) *)

Module Layout.
Import Analysis.

(** [str(cell.value)] for the cells of a sheet, column by column: the header
    and below it the rows. *)
Definition sheet_columns (sh : sheet) : list (list string) :=
  [ nth 0 (headers sh) EmptyString :: map row_condition (rows sh);
    nth 1 (headers sh) EmptyString :: map row_component (rows sh);
    nth 2 (headers sh) EmptyString :: map (fun r => pretty (row_count r)) (rows sh);
    nth 3 (headers sh) EmptyString :: map row_color (rows sh) ].

(** Lines 322-329: the longest text of a column, found cell by cell. *)
Definition max_length (column : list string) : nat :=
  foldl (fun longest value =>
           if Nat.ltb longest (String.length value) then String.length value else longest)
        0 column.

(** Lines 330-331 *)
Definition adjusted_width (column : list string) : nat := max_length column + 2.

Definition column_widths (sh : sheet) : list nat := map adjusted_width (sheet_columns sh).

End Layout.

(** * Properties

    First the vocabulary the statements use, then the lemmas and the
    theorems, in the order of the script. *)

Section Vocabulary.
Import Py Text Excel Pdf Analysis Run.

(** ** Identifiers and prefixes *)

(** The spec's words for a valid identifier: one of the prefixes followed by
    one or more decimal digits and nothing else. *)
Definition is_valid_identifier (s : string) (prefixes : list string) : Prop :=
  exists p d, p ∈ prefixes /\ s = p +:+ d /\ Text.digits1 d = true.

(** A single upper-case letter followed by one or more digits. *)
Definition is_letter_number (s : string) : Prop :=
  exists c d, Text.is_upper c = true /\ s = String c d /\ Text.digits1 d = true.

(** The prefixes the script can be configured with: at least one, none of
    them empty, all of them read literally by the regular expressions. *)
Definition configured (prefixes : list string) : bool :=
  match prefixes with
  | [] => false
  | _ => forallb (fun p => Text.truthy p && Text.literal_prefix p) prefixes
  end.

(** A string that does not begin with white space. *)
Definition starts_clean (s : string) : Prop :=
  match s with
  | "" => True
  | String c _ => is_space c = false
  end.

(** A string without a comma. *)
Definition comma_free (s : string) : bool :=
  all_chars (fun c => negb (Ascii.eqb c ","%char)) s.

(** An identifier in the form the script gives it: trimmed, upper-cased,
    without a comma, not empty. *)
Definition canonical (c : string) : Prop :=
  strip c = c /\ upper c = c /\ comma_free c = true /\ c <> "".

(** ** Rows of the spreadsheet *)

(** The identifiers of a cell and of the selected cells of a row, in the
    spec's words: split on commas, trimmed, upper-cased, empty parts left
    out, collected in a set. *)
Definition cell_identifiers (c : cell) : list string :=
  match c with
  | Str s => split_components s
  | _ => []
  end.

Definition identifiers (component_columns : list string) (r : row) : gset string :=
  list_to_set (flat_map (fun col => match row_get r col with
                                    | Ok c => cell_identifiers c
                                    | Raise _ => []
                                    end) component_columns).

(** The selected columns exist and hold text or nothing. *)
Definition textual_row (component_columns : list string) (r : row) : bool :=
  forallb (fun col => match row_get r col with
                      | Ok NaN | Ok (Str _) => true
                      | _ => false
                      end) component_columns.

Definition textual (component_columns : list string) (df : list row) : bool :=
  forallb (textual_row component_columns) df.

(** No identifier of the row spells a missing value for the reader. *)
Definition unmarked_row (component_columns : list string) (r : row) : bool :=
  forallb (fun c => negb (is_na c)) (sorted (elements (identifiers component_columns r))).

Definition unmarked (component_columns : list string) (df : list row) : bool :=
  forallb (unmarked_row component_columns) df.


(** The rows one input row turns into. *)
Definition expansion (cols : list string) (r : row) : list row :=
  if decide (identifiers cols r = ∅)
  then [row_set r merged_label (Str "")]
  else map (fun c => row_set r merged_label (Str c)) (sorted (elements (identifiers cols r))).

(** The items read back from the added column of one group of rows. *)
Definition group_items (cols : list string) (r : row) : list string :=
  sorted (elements (identifiers cols r)).

(** The cells of the added column down the group of one input row. *)
Definition group_cells (cols : list string) (r : row) : list cell :=
  if decide (identifiers cols r = ∅) then [Str ""] else map Str (group_items cols r).

(** The texts of a column in row order, the cells without text left out:
    what a reading returns that takes nothing away and changes nothing. *)
Definition texts_written (column : list cell) : list string :=
  omap (fun c => match c with
                 | Str s => if truthy s then Some s else None
                 | _ => None
                 end) column.




(** What one input row turns into: [listing] is the content of the added
    column down the group. *)
Definition expands_to (cols : list string) (r : row) (group : list row) : Prop :=
  exists listing : list string,
    map (fun r' => row_get r' merged_label) group = map (fun c => Ok (Str c)) listing /\
    Forall (fun r' => forall col, col <> merged_label -> row_get r' col = row_get r col) group /\
    (identifiers cols r = ∅ -> length group = 1 /\ listing = [""]) /\
    (identifiers cols r <> ∅ ->
       length group = size (identifiers cols r) /\
       StronglySorted (strict String.le) listing /\
       forall c, c ∈ listing <-> c ∈ identifiers cols r).

(** A frame of three rows with the selected columns [Ref] and [Alt]. *)
Definition sample_columns : list string := ["Ref"; "Alt"].

Definition sample_frame : list row :=
  [ [("Qty", Num 3); ("Ref", Str "r1, R2,r1"); ("Alt", Str "r2 ,c5")];
    [("Qty", Num 1); ("Ref", NaN); ("Alt", Str "  ")];
    [("Qty", Num 1); ("Ref", Str "R1"); ("Alt", NaN)] ].

(** ** States and outcomes of the extraction *)

(** The state after appending [obs] and emitting [events]. *)
Definition after (s : state) (obs : list observation) (events : list event) : state :=
  {| components := components s ++ obs; trace := trace s ++ events |}.

(** The words of one page of the text layer that are kept. *)
Definition kept_words (vp : list string) (page_num : nat) (words : list word_tuple)
    : list observation :=
  map (fun t => (normalize (text t), page_num, Some t))
      (List.filter (fun t => keep_word vp (normalize (text t))) words).

Fixpoint kept_pages (vp : list string) (page_num : nat) (pages : list (list word_tuple))
    : list observation :=
  match pages with
  | [] => []
  | words :: pages' => kept_words vp page_num words ++ kept_pages vp (S page_num) pages'
  end.

(** The words of a page text the fallbacks keep. *)
Definition scanned (vp : list string) (page_num : nat) (text : string) : list observation :=
  map (fun word => (word, page_num, None))
      (List.filter (fun word => existsb (startswith word) vp)
                   (findall (multi_letter_prefixes vp) text)).

(** A fallback's loop over the pages: what it appends, and how it ends. *)
Fixpoint scanned_pages {A B} (vp : list string) (read : A -> result B) (to_text : B -> string)
    (page_num : nat) (pages : list A) : list observation * result unit :=
  match pages with
  | [] => ([], Ok tt)
  | page :: pages' =>
      match read page with
      | Raise e => ([], Raise e)
      | Ok x =>
          let rest := scanned_pages vp read to_text (S page_num) pages' in
          (scanned vp page_num (to_text x) ++ rest.1, rest.2)
      end
  end.

(** What a fallback leaves behind: its observations and how its body ended. *)
Definition outcome {A B} (vp : list string) (answer : result (list A)) (read : A -> result B)
    (to_text : B -> string) : list observation * result unit :=
  match answer with
  | Raise e => ([], Raise e)
  | Ok pages => scanned_pages vp read to_text 1 pages
  end.

Definition ocr_outcome (vp : list string) (doc : document) : list observation * result unit :=
  outcome vp (doc_images doc) id upper.

Definition pdfplumber_outcome (vp : list string) (doc : document)
    : list observation * result unit :=
  outcome vp (doc_plumber doc) id plumber_text.

(** The warning of a fallback whose body ended as [r]. *)
Definition warning (label : string) (r : result unit) : list event :=
  match r with
  | Ok _ => []
  | Raise e => [Warning (label +:+ message e)]
  end.

(** A word of the text layer, and a document of two pages. *)
Definition sample_word (s : string) : word_tuple :=
  {| x0 := 10; y0 := 20; x1 := 30; y1 := 28; text := s |}%float.

Definition sample_document : document :=
  {| doc_pages := [[sample_word "R1,"; sample_word "the"; sample_word "LED12"];
                   [sample_word "r-1"; sample_word "C3x"]];
     doc_images := Raise (LibraryError "no rasterizer");
     doc_plumber := Ok [] |}.

(** The try of a fallback never lets an exception out: a fallback ends
    normally from every state, with the state its body left and, when the
    body raised, one warning more. *)
Definition caught (label : string) (body block : M unit) : Prop :=
  forall s,
    block s = match body s with
              | (s', Ok _) => (s', Ok tt)
              | (s', Raise e) =>
                  ({| components := components s';
                      trace := trace s' ++ [Warning (label +:+ message e)] |}, Ok tt)
              end.

(** A document without text layer whose second page makes the recognizer
    fail, and whose alternate extraction would find [R5]. *)
Definition half_recognized : document :=
  {| doc_pages := [[sample_word "the"]; []];
     doc_images := Ok [Ok "u7 damaged part U7"; Raise (LibraryError "boom")];
     doc_plumber := Ok [Ok (Some "r5"); Ok None] |}.

(** ** Sheets and markers *)

(** All the identifiers of the spreadsheet side, with repetitions. *)
Definition excel_words (i : inputs) : list string := flat_map split_components (excel_items i).

(** The inputs of scenario 5 and around: the document shows [R1] twice and
    [C3]; the column lists [R1], [D5], the stray word [THE1], and [T1]. *)
Definition stray_inputs : inputs :=
  {| valid_prefixes := Config.default_prefixes;
     pdf_components_list := [("R1", 1, None); ("R1", 2, None); ("C3", 1, None)];
     excel_items := ["R1"; "D5"; "THE1"; "T1"] |}.

(** The keys of [conditions], in the order of the sheets. *)
Definition all_keys : list condition_key :=
  [key_repeated_pdf; key_repeated_excel; key_in_pdf_not_excel; key_in_excel_not_pdf; key_normal].

(** [comp] is in some data row of the report. *)
Definition in_report (i : inputs) (comp : string) : bool :=
  existsb (fun sh => bool_decide (comp ∈ listed sh)) (report i).

(** The sheets an identifier is listed on, from the five memberships. *)
Definition keys_of (rp re po eo nm : bool) : list condition_key :=
  (if rp then [key_repeated_pdf] else []) ++ (if re then [key_repeated_excel] else [])
  ++ (if po then [key_in_pdf_not_excel] else []) ++ (if eo then [key_in_excel_not_pdf] else [])
  ++ (if nm then [key_normal] else []).

(** The document shows [R1] on two pages; the spreadsheet does not list it. *)
Definition twice_undeclared : inputs :=
  {| valid_prefixes := Config.default_prefixes;
     pdf_components_list := [("R1", 1, None); ("R1", 2, None)];
     excel_items := [] |}.

(** The spec's priority order, with the colour of each set. *)
Definition priority : list (condition_key * color) :=
  [ (key_in_pdf_not_excel, yellow); (key_in_excel_not_pdf, blue);
    (key_repeated_pdf, red); (key_repeated_excel, cyan); (key_normal, green) ].

(** The colour of the first set in priority order that contains [word]. *)
Definition priority_color (i : inputs) (word : string) : option color :=
  snd <$> List.find (fun kc => bool_decide (word ∈ condition_components i kc.1)) priority.

(** The markers the spec asks for: one for each observation with a bounding
    region, in the colour the priority order gives its identifier. *)
Definition priority_highlights (i : inputs) : list highlight :=
  omap (fun comp : observation =>
          match comp with
          | (word, page_num, Some word_tuple) =>
              stroke_color ← priority_color i word;
              Some {| page_index := page_num - 1;
                      region := marker_rect word_tuple;
                      stroke := stroke_color;
                      opacity := 0.5%float |}
          | _ => None
          end)
       (pdf_components_list i).

(** ** Executions *)

(** The button was pressed, all guarded operations succeed and no statement
    outside a [try] raises. *)
Definition all_well (env : environment) : bool :=
  read_excel_ok env && process_pressed env && rows_expanded env && save_modified_ok env
  && read_modified_ok env && open_pdf_ok env && document_analysed env && save_pdf_ok env
  && workbook_built env && save_report_ok env && files_offered env.

(** An execution in which everything goes well. *)
Definition smooth : environment :=
  {| tmp_excel := "/tmp/tmpa1b2c3.xlsx"; tmp_pdf := "/tmp/tmpd4e5f6.pdf"; base_name := "bom";
     read_excel_ok := true; process_pressed := true; rows_expanded := true;
     save_modified_ok := true; read_modified_ok := true; open_pdf_ok := true;
     document_analysed := true; save_pdf_ok := true; workbook_built := true;
     save_report_ok := true; files_offered := true |}.

(** An execution in which saving the annotated document fails. *)
Definition pdf_save_fails : environment :=
  {| tmp_excel := "/tmp/tmpa1b2c3.xlsx"; tmp_pdf := "/tmp/tmpd4e5f6.pdf"; base_name := "bom";
     read_excel_ok := true; process_pressed := true; rows_expanded := true;
     save_modified_ok := true; read_modified_ok := true; open_pdf_ok := true;
     document_analysed := true; save_pdf_ok := false; workbook_built := true;
     save_report_ok := true; files_offered := true |}.

(** An execution in which a selected column holds a number: line 110 raises
    and nothing catches it. *)
Definition expansion_raises : environment :=
  {| tmp_excel := "/tmp/tmpa1b2c3.xlsx"; tmp_pdf := "/tmp/tmpd4e5f6.pdf"; base_name := "bom";
     read_excel_ok := true; process_pressed := true; rows_expanded := false;
     save_modified_ok := true; read_modified_ok := true; open_pdf_ok := true;
     document_analysed := true; save_pdf_ok := true; workbook_built := true;
     save_report_ok := true; files_offered := true |}.

(** ** More vocabulary *)

(** An identifier in canonical form, as a test. *)
Definition is_canonical (c : string) : bool :=
  String.eqb (strip c) c && String.eqb (upper c) c && comma_free c && truthy c.

(** Prefixes as the design document has them: at least one, each a non-empty
    word of upper-case letters. *)
Definition alphabetic (prefixes : list string) : bool :=
  match prefixes with
  | [] => false
  | _ => forallb (fun p => truthy p && all_chars is_upper p) prefixes
  end.

(** The list [extract_components_from_pdf] returns. *)
Definition extracted (vp : list string) (doc : document) : list observation :=
  match (run_extract vp doc).2 with
  | Ok found => found
  | Raise _ => []
  end.

(** The inputs of the analysis after an extraction. *)
Definition analysed (vp : list string) (doc : document) (items : list string) : inputs :=
  {| valid_prefixes := vp; pdf_components_list := extracted vp doc; excel_items := items |}.

(** The least count a row of a sheet can show. *)
Definition least_count (key : condition_key) : nat :=
  match key with
  | key_repeated_pdf | key_repeated_excel => 2
  | _ => 1
  end.

(** The number of observations of [c]. *)
Definition observations_of (c : string) (l : list observation) : nat :=
  length (filter (fun comp : observation => comp.1.1 = c) l).

(** The sheet the report makes for an entry of [conditions]. *)
Definition sheet_of (i : inputs) (key : condition_key) (condition_name color_name : string)
    : sheet :=
  {| sheet_key := key;
     title := condition_name;
     headers := ["Condition"; "Component"; "Number of Times Repeated"; "Highlight Color"];
     rows := map (fun comp =>
                    {| row_condition := condition_name;
                       row_component := comp;
                       row_count := repeat_count i key comp;
                       row_color := color_name |})
                 (sorted (elements (condition_components i key))) |}.

(** What a sheet owes to its entry in [conditions]. *)
Definition sheet_in_order (i : inputs) (sh : sheet) : Prop :=
  StronglySorted (strict String.le) (listed sh) /\
  (forall c, c ∈ listed sh <-> c ∈ condition_components i (sheet_key sh)) /\
  Forall (fun r => row_condition r = title sh /\
                   exists color, (sheet_key sh, (title sh, row_color r, color)) ∈ conditions)
         (rows sh).

(** An observation with a bounding region is listed on the sheet of its
    marker's colour. *)
Definition marker_matches_sheet (i : inputs) (comp : observation) : Prop :=
  match comp with
  | (word, _, Some _) =>
      exists sh color_name,
        sh ∈ report i /\ word ∈ listed sh /\
        (sheet_key sh, (title sh, color_name, marker_color i word)) ∈ conditions
  | _ => True
  end.

(** The page number and the bounding region of an observation. *)
Definition page_of (comp : observation) : nat := comp.1.2.

Definition has_region (comp : observation) : bool :=
  match comp.2 with Some _ => true | None => false end.

End Vocabulary.

(** ** Facts about strings and patterns *)

Lemma configured_nonempty prefixes :
  configured prefixes = true -> prefixes <> [] /\ Forall (fun p => p <> "") prefixes.
Proof.
  unfold configured. destruct prefixes as [|p0 ps]; [done|]. intros H. split; [done|].
  rewrite forallb_forall in H. apply Forall_forall. intros p Hp%list_elem_of_In.
  specialize (H p Hp). apply andb_true_iff in H as [H _]. by destruct p.
Qed.

Section TextFacts.
Import Text.
Local Arguments Ascii.eqb : simpl never.

Ltac each_char c := destruct c as [[] [] [] [] [] [] [] []]; vm_compute; try reflexivity; try discriminate; try tauto.

Lemma upper_char_idem c : upper_char (upper_char c) = upper_char c.
Proof. each_char c. Qed.

Lemma is_space_upper_char c : is_space (upper_char c) = is_space c.
Proof. each_char c. Qed.

Lemma comma_upper_char c : Ascii.eqb (upper_char c) ","%char = Ascii.eqb c ","%char.
Proof. each_char c. Qed.

Lemma is_alnum_upper_char c : is_alnum c = true -> is_alnum (upper_char c) = true.
Proof. each_char c. Qed.

Lemma alnum_not_newline c : is_alnum c = true -> Ascii.eqb c "010"%char = false.
Proof. each_char c. Qed.

Lemma digit_not_newline c : is_digit c = true -> Ascii.eqb c "010"%char = false.
Proof. each_char c. Qed.

Lemma space_not_comma c : is_space c = true -> Ascii.eqb c ","%char = false.
Proof. each_char c. Qed.

Lemma upper_idem s : upper (upper s) = upper s.
Proof. induction s as [|c s IH]; simpl; [reflexivity|]. by rewrite upper_char_idem, IH. Qed.

Lemma truthy_upper s : truthy (upper s) = truthy s.
Proof. by destruct s. Qed.

Lemma truthy_false s : truthy s = false <-> s = "".
Proof. destruct s; simpl; split; congruence. Qed.

(** ** [strip] *)

Lemma lstrip_upper s : lstrip (upper s) = upper (lstrip s).
Proof.
  induction s as [|c s IH]; simpl; [reflexivity|].
  rewrite is_space_upper_char. destruct (is_space c); [exact IH|reflexivity].
Qed.

Lemma rstrip_upper s : rstrip (upper s) = upper (rstrip s).
Proof.
  induction s as [|c s IH]; simpl; [reflexivity|].
  rewrite IH, is_space_upper_char.
  destruct (rstrip s); simpl; [destruct (is_space c)|]; reflexivity.
Qed.

Lemma strip_upper s : strip (upper s) = upper (strip s).
Proof. unfold strip. by rewrite lstrip_upper, rstrip_upper. Qed.

Lemma rstrip_idem s : rstrip (rstrip s) = rstrip s.
Proof.
  induction s as [|c s IH]; simpl; [reflexivity|].
  destruct (rstrip s) as [|d r] eqn:E.
  - destruct (is_space c) eqn:Hc; simpl; [reflexivity|]. by rewrite Hc.
  - change (rstrip (String c (String d r))) with
      (match rstrip (String d r) with
       | "" => if is_space c then "" else String c ""
       | r' => String c r'
       end).
    by rewrite IH.
Qed.

Lemma lstrip_starts_clean s : starts_clean (lstrip s).
Proof.
  induction s as [|c s IH]; simpl; [exact I|].
  destruct (is_space c) eqn:Hc; [exact IH|exact Hc].
Qed.

Lemma lstrip_clean s : starts_clean s -> lstrip s = s.
Proof. destruct s as [|c s]; simpl; [reflexivity|]. by intros ->. Qed.

Lemma rstrip_starts_clean s : starts_clean s -> starts_clean (rstrip s).
Proof.
  destruct s as [|c s]; simpl; [exact id|]. intros Hc.
  destruct (rstrip s); [rewrite Hc|]; exact Hc.
Qed.

Lemma strip_idem s : strip (strip s) = strip s.
Proof.
  unfold strip.
  rewrite (lstrip_clean (rstrip (lstrip s))).
  - apply rstrip_idem.
  - apply rstrip_starts_clean, lstrip_starts_clean.
Qed.

Lemma rstrip_empty s : rstrip s = "" -> all_chars is_space s = true.
Proof.
  induction s as [|c s IH]; simpl; [reflexivity|].
  destruct (rstrip s); [|discriminate].
  destruct (is_space c); [intros _; exact (IH eq_refl)|discriminate].
Qed.

Lemma lstrip_spaces s : all_chars is_space (lstrip s) = true -> all_chars is_space s = true.
Proof.
  induction s as [|c s IH]; simpl; [reflexivity|].
  destruct (is_space c) eqn:Hc; simpl; [exact IH|]. by rewrite Hc.
Qed.

Lemma strip_empty s : strip s = "" -> all_chars is_space s = true.
Proof. intros H. by apply lstrip_spaces, rstrip_empty. Qed.

(** ** [split(',')] *)

Lemma split_comma_free s : comma_free s = true -> split_comma s = [s].
Proof.
  unfold comma_free.
  induction s as [|c s IH]; simpl; [reflexivity|].
  intros [Hc Hs]%andb_true_iff. apply negb_true_iff in Hc. rewrite Hc, (IH Hs). reflexivity.
Qed.

Lemma split_comma_parts s : Forall (fun part => comma_free part = true) (split_comma s).
Proof.
  induction s as [|c s IH]; simpl; [by repeat constructor|].
  destruct (Ascii.eqb c ","%char) eqn:Hc.
  - by constructor.
  - destruct (split_comma s) as [|w ws].
    { constructor; [|constructor]. unfold comma_free; simpl. by rewrite Hc. }
    inversion IH as [|? ? Hw Hws]; subst. constructor; [|assumption].
    unfold comma_free in *; simpl. by rewrite Hc.
Qed.

Lemma spaces_comma_free s : all_chars is_space s = true -> comma_free s = true.
Proof.
  unfold comma_free.
  induction s as [|c s IH]; simpl; [reflexivity|].
  intros [Hc Hs]%andb_true_iff. by rewrite (space_not_comma _ Hc), (IH Hs).
Qed.

Lemma lstrip_comma_free s : comma_free s = true -> comma_free (lstrip s) = true.
Proof.
  unfold comma_free.
  induction s as [|c s IH]; simpl; [reflexivity|].
  intros [Hc Hs]%andb_true_iff. destruct (is_space c); [by apply IH|]. simpl. by rewrite Hc.
Qed.

Lemma rstrip_comma_free s : comma_free s = true -> comma_free (rstrip s) = true.
Proof.
  unfold comma_free.
  induction s as [|c s IH]; simpl; [reflexivity|].
  intros [Hc Hs]%andb_true_iff. specialize (IH Hs).
  destruct (rstrip s); [destruct (is_space c)|]; simpl in *; rewrite ?Hc; auto.
Qed.

Lemma upper_comma_free s : comma_free s = true -> comma_free (upper s) = true.
Proof.
  unfold comma_free.
  induction s as [|c s IH]; simpl; [reflexivity|].
  intros [Hc Hs]%andb_true_iff. by rewrite comma_upper_char, Hc, (IH Hs).
Qed.

Lemma split_components_canonical s c : c ∈ split_components s -> canonical c.
Proof.
  unfold split_components. intros Hin.
  apply list_elem_of_In, in_map_iff in Hin as (part & <- & Hpart).
  apply filter_In in Hpart as [Hpart Hne].
  pose proof (split_comma_parts s) as Hfree.
  rewrite Forall_forall in Hfree. apply list_elem_of_In, Hfree in Hpart.
  repeat split.
  - by rewrite strip_upper, strip_idem.
  - apply upper_idem.
  - by apply upper_comma_free, rstrip_comma_free, lstrip_comma_free.
  - intros E. apply truthy_false in E. by rewrite truthy_upper, Hne in E.
Qed.

Lemma split_components_of_canonical c : canonical c -> split_components c = [c].
Proof.
  intros (Hs & Hu & Hf & Hne). unfold split_components.
  rewrite (split_comma_free _ Hf). cbn [List.filter map]. rewrite Hs.
  destruct c; [done|]. cbn [truthy map]. by rewrite Hs, Hu.
Qed.

Lemma split_components_blank s : truthy (strip s) = false -> split_components s = [].
Proof.
  intros H. pose proof H as H'. apply truthy_false, strip_empty, spaces_comma_free in H'.
  unfold split_components. rewrite (split_comma_free _ H'). simpl. by rewrite H.
Qed.

(** ** Matching a prefix *)

Lemma after_prefix_spec p w r : after_prefix p w = Some r <-> w = p +:+ r.
Proof.
  revert w. induction p as [|a p IH]; intros w; simpl.
  - split; [intros [= ->]|intros ->]; reflexivity.
  - destruct w as [|b w]; [split; discriminate|].
    change (String a p +:+ r) with (String a (p +:+ r)).
    destruct (Ascii.eqb_spec a b) as [->|Hab].
    + rewrite IH. split; [by intros ->|by intros [= ->]].
    + split; [discriminate|]. intros [= ? ?]; by subst.
Qed.

Lemma prefix_digits_spec p w :
  prefix_digits p w = true <-> exists d, w = p +:+ d /\ digits1 d = true.
Proof.
  unfold prefix_digits. destruct (after_prefix p w) as [r|] eqn:E.
  - apply after_prefix_spec in E. split; [eauto|].
    intros (d & Hw & Hd). subst w. by apply String.app_inj in Hw as ->.
  - split; [discriminate|]. intros (d & Hw & _).
    apply after_prefix_spec in Hw. congruence.
Qed.

Lemma letter_digits_spec w : letter_digits w = true <-> is_letter_number w.
Proof.
  unfold is_letter_number. destruct w as [|c r]; simpl.
  - split; [discriminate|]. by intros (? & ? & _ & ? & _).
  - rewrite andb_true_iff. split.
    + intros [? ?]. eauto.
    + intros (c' & d & ? & [= -> ->] & ?). auto.
Qed.

Lemma existsb_prefix_digits prefixes w :
  existsb (fun p => prefix_digits p w) prefixes = true <-> is_valid_identifier w prefixes.
Proof.
  unfold is_valid_identifier. rewrite existsb_exists. split.
  - intros (p & Hin & (d & ? & ?)%prefix_digits_spec). exists p, d. by rewrite list_elem_of_In.
  - intros (p & d & Hin & ? & ?). exists p. rewrite <- list_elem_of_In. split; [done|].
    apply prefix_digits_spec. eauto.
Qed.

Lemma startswith_app p d : startswith (p +:+ d) p = true.
Proof. unfold startswith. induction p as [|a p IH]; simpl; [by destruct d|]. destruct (ascii_dec a a); [exact IH|done]. Qed.

Lemma drop_final_newline_id s :
  all_chars (fun c => negb (Ascii.eqb c "010"%char)) s = true -> drop_final_newline s = s.
Proof.
  induction s as [|c s IH]; [reflexivity|].
  simpl. intros [Hc Hs]%andb_true_iff. apply negb_true_iff in Hc.
  destruct s; [by rewrite Hc|]. f_equal. by apply IH.
Qed.

Lemma all_chars_impl (p q : ascii -> bool) s :
  (forall c, p c = true -> q c = true) -> all_chars p s = true -> all_chars q s = true.
Proof.
  intros Hpq. induction s as [|c s IH]; simpl; [done|].
  intros [Hc Hs]%andb_true_iff. by rewrite (Hpq _ Hc), (IH Hs).
Qed.

Lemma normalize_alnum raw : all_chars is_alnum (normalize raw) = true.
Proof.
  unfold normalize. induction (strip raw) as [|c s IH]; simpl; [reflexivity|].
  destruct (is_alnum c) eqn:Hc; simpl; [|exact IH].
  by rewrite (is_alnum_upper_char _ Hc), IH.
Qed.

Lemma alnum_no_newline s : all_chars is_alnum s = true -> drop_final_newline s = s.
Proof.
  intros H. apply drop_final_newline_id. revert H. apply all_chars_impl.
  intros c Hc. by rewrite (alnum_not_newline _ Hc).
Qed.

End TextFacts.

Example normalize_punctuation : Text.normalize " r-12. " = "R12".
Proof. reflexivity. Qed.

Example split_components_cell : Text.split_components "r1, R2,r1" = ["R1"; "R2"; "R1"].
Proof. reflexivity. Qed.

Example split_components_blanks : Text.split_components " , ,," = [].
Proof. reflexivity. Qed.

Example re_match_prefix_examples :
  Text.re_match_prefix "R" "R12" = true /\ Text.re_match_prefix "R" "R12A" = false /\
  Text.re_match_prefix "R" "RR12" = false /\ Text.re_match_prefix "RR" "RR12" = true /\
  Text.re_match_prefix "R" "R" = false.
Proof. repeat split; reflexivity. Qed.

Example findall_recognized :
  Text.findall ["FB"; "LED"] "U7 DAMAGED PART U7 XLED12 R3C4 99" = ["U7"; "U7"; "LED12"; "R3"; "C4"].
Proof. reflexivity. Qed.

Example sorted_example : Text.sorted ["R2"; "C10"; "R1"; "R10"] = ["C10"; "R1"; "R10"; "R2"].
Proof. reflexivity. Qed.

(** ** Sorting a set of identifiers *)

Section SortedFacts.
Import Text.

Lemma sorted_perm l : sorted l ≡ₚ l.
Proof. apply merge_sort_Permutation. Qed.

Lemma elem_of_sorted c l : c ∈ sorted l <-> c ∈ l.
Proof. by rewrite sorted_perm. Qed.

Lemma elem_of_sorted_elements c (X : gset string) : c ∈ sorted (elements X) <-> c ∈ X.
Proof. by rewrite elem_of_sorted, elem_of_elements. Qed.

Lemma length_sorted_elements (X : gset string) : length (sorted (elements X)) = size X.
Proof. by rewrite sorted_perm. Qed.

Lemma NoDup_sorted_elements (X : gset string) : NoDup (sorted (elements X)).
Proof. rewrite sorted_perm. apply NoDup_elements. Qed.

Lemma sorted_ascending l : StronglySorted String.le (sorted l).
Proof. apply StronglySorted_merge_sort; apply _. Qed.

(** Distinct strings in ascending order are in strictly ascending order. *)
Lemma ascending_strict l :
  StronglySorted String.le l -> NoDup l -> StronglySorted (strict String.le) l.
Proof.
  induction 1 as [|x l Hl IH Hx]; intros Hnd; [constructor|].
  apply NoDup_cons in Hnd as [Hnin Hnd]. constructor; [by apply IH|].
  rewrite Forall_forall in Hx |- *. intros y Hy. split; [by apply Hx|].
  intros Hyx. apply Hnin. assert (x = y) as -> by (apply (anti_symm String.le); auto). done.
Qed.

Lemma sorted_elements_strict (X : gset string) :
  StronglySorted (strict String.le) (sorted (elements X)).
Proof. apply ascending_strict; [apply sorted_ascending|apply NoDup_sorted_elements]. Qed.


End SortedFacts.

(** ** The counter *)

Section CounterFacts.
Import Excel.

Lemma counter_get_add (m : gmap string nat) k c :
  counter_get (counter_add m k) c = counter_get m c + (if decide (k = c) then 1 else 0).
Proof.
  unfold counter_get, counter_add. destruct (decide (k = c)) as [->|Hne].
  - rewrite lookup_insert_eq. simpl. lia.
  - rewrite lookup_insert_ne by done. lia.
Qed.

Lemma counter_get_update (m : gmap string nat) l c :
  counter_get (counter_update m l) c = counter_get m c + length (filter (fun x => x = c) l).
Proof.
  unfold counter_update. revert m. induction l as [|k l IH]; intros m; simpl; [lia|].
  rewrite IH, counter_get_add, filter_cons. destruct (decide (k = c)); simpl; lia.
Qed.

Lemma counter_dom_update (m : gmap string nat) l :
  dom (counter_update m l) = dom m ∪ list_to_set l.
Proof.
  unfold counter_update. revert m. induction l as [|k l IH]; intros m; simpl.
  - set_solver.
  - rewrite IH. unfold counter_add. rewrite dom_insert_L. set_solver.
Qed.

Lemma counter_get_empty c : counter_get ∅ c = 0.
Proof. unfold counter_get. by rewrite lookup_empty. Qed.

(** The counter never holds a zero. *)
Lemma counter_update_positive (m : gmap string nat) l k n :
  (forall k n, m !! k = Some n -> 0 < n) -> counter_update m l !! k = Some n -> 0 < n.
Proof.
  unfold counter_update. revert m. induction l as [|x l IH]; intros m Hm; simpl; [apply Hm|].
  apply IH. intros k' n'. unfold counter_add.
  destruct (decide (x = k')) as [->|Hne].
  - rewrite lookup_insert_eq. intros [= <-]. lia.
  - rewrite lookup_insert_ne by done. apply Hm.
Qed.

End CounterFacts.

(** ** The row expansion *)

Section ExcelFacts.
Import Py Text Excel.

Lemma row_get_set_same r col v : row_get (row_set r col v) col = Ok v.
Proof.
  induction r as [|[label x] r IH]; simpl.
  - by rewrite String.eqb_refl.
  - destruct (String.eqb label col) eqn:E; simpl; by rewrite E.
Qed.

Lemma row_get_set_other r col col' v :
  col' <> col -> row_get (row_set r col v) col' = row_get r col'.
Proof.
  intros Hne.
  assert (String.eqb col col' = false) as Hcol by (apply String.eqb_neq; congruence).
  induction r as [|[label x] r IH]; simpl.
  - by rewrite Hcol.
  - destruct (String.eqb label col) eqn:E; simpl; [|by rewrite IH].
    apply String.eqb_eq in E as ->. by rewrite Hcol.
Qed.

(** Without a column of that name the new value is a new last column. *)
Lemma row_set_fresh r col v :
  row_get r col = Raise KeyError -> row_set r col v = r ++ [(col, v)].
Proof.
  induction r as [|[label x] r IH]; simpl; [done|].
  destruct (String.eqb label col); [done|]. intros H. by rewrite IH.
Qed.

Lemma cell_components_textual c :
  match c with Num _ => False | _ => True end ->
  cell_components c = Ok (cell_identifiers c).
Proof.
  destruct c as [|s|n]; simpl; [done| |done]. intros _.
  destruct (truthy (strip s)) eqn:E; [done|]. by rewrite split_components_blank.
Qed.

Lemma row_components_textual cols r acc :
  textual_row cols r = true ->
  row_components cols r acc = Ok (acc ∪ identifiers cols r).
Proof.
  unfold identifiers. revert acc. induction cols as [|col cols IH]; intros acc; simpl.
  - intros _. f_equal. set_solver.
  - intros [Hc Hcols]%andb_true_iff.
    destruct (row_get r col) as [c|e]; [|done]. simpl.
    rewrite cell_components_textual by (by destruct c). simpl.
    rewrite IH by done. f_equal. rewrite list_to_set_app_L. set_solver.
Qed.

Lemma identifiers_canonical cols r c : c ∈ identifiers cols r -> canonical c.
Proof.
  unfold identifiers. rewrite elem_of_list_to_set, list_elem_of_In, in_flat_map.
  intros (col & _ & Hc). destruct (row_get r col) as [[|s|n]|]; simpl in Hc; try done.
  apply list_elem_of_In in Hc. by apply split_components_canonical in Hc.
Qed.

Lemma expand_row_textual cols r :
  textual_row cols r = true -> expand_row cols r = Ok (expansion cols r).
Proof.
  intros H. unfold expand_row, expansion. rewrite row_components_textual by done. simpl.
  by rewrite (left_id_L ∅ (∪)).
Qed.

Lemma expand_rows_textual cols df :
  textual cols df = true -> expand_rows cols df = Ok (concat (map (expansion cols) df)).
Proof.
  induction df as [|r df IH]; simpl; [done|].
  intros [Hr Hdf]%andb_true_iff. by rewrite expand_row_textual, IH.
Qed.


Lemma merged_items_app rows1 rows2 l1 l2 :
  merged_items rows1 = Ok l1 -> merged_items rows2 = Ok l2 ->
  merged_items (rows1 ++ rows2) = Ok (l1 ++ l2).
Proof.
  revert l1. induction rows1 as [|r rows1 IH]; intros l1; simpl.
  - by intros [= <-].
  - destruct (row_get r merged_label) as [c|]; [|done]. simpl.
    destruct (merged_items rows1) as [l|]; [|done]. simpl.
    intros [= <-] H2. rewrite (IH l eq_refl H2). simpl. by destruct (read_back c).
Qed.

Lemma merged_items_set r (l : list string) :
  forallb (fun c => negb (is_na c)) l = true ->
  merged_items (map (fun c => row_set r merged_label (Str c)) l) = Ok l.
Proof.
  induction l as [|c l IH]; simpl; [done|].
  intros [Hc Hl]%andb_true_iff. apply negb_true_iff in Hc.
  rewrite row_get_set_same, (IH Hl). simpl. by rewrite Hc.
Qed.

Lemma merged_items_expansion cols r :
  unmarked_row cols r = true ->
  merged_items (expansion cols r) = Ok (group_items cols r).
Proof.
  unfold expansion, group_items, unmarked_row.
  destruct (decide (identifiers cols r = ∅)) as [E|E]; intros H.
  - simpl. rewrite row_get_set_same. simpl. by rewrite E, elements_empty.
  - by apply merged_items_set.
Qed.

Lemma merged_items_expansions cols df :
  unmarked cols df = true ->
  merged_items (concat (map (expansion cols) df)) = Ok (flat_map (group_items cols) df).
Proof.
  induction df as [|r df IH]; simpl; [done|].
  intros [Hr Hdf]%andb_true_iff.
  apply merged_items_app; [by apply merged_items_expansion|by apply IH].
Qed.

Lemma merged_column_app rows1 rows2 l1 l2 :
  merged_column rows1 = Ok l1 -> merged_column rows2 = Ok l2 ->
  merged_column (rows1 ++ rows2) = Ok (l1 ++ l2).
Proof.
  revert l1. induction rows1 as [|r rows1 IH]; intros l1; simpl.
  - by intros [= <-].
  - destruct (row_get r merged_label) as [c|]; [|done]. simpl.
    destruct (merged_column rows1) as [l|]; [|done]. simpl.
    intros [= <-] H2. by rewrite (IH l eq_refl H2).
Qed.

Lemma merged_column_set r (l : list string) :
  merged_column (map (fun c => row_set r merged_label (Str c)) l) = Ok (map Str l).
Proof. induction l as [|c l IH]; simpl; [done|]. by rewrite row_get_set_same, IH. Qed.

Lemma merged_column_expansion cols r :
  merged_column (expansion cols r) = Ok (group_cells cols r).
Proof.
  unfold expansion, group_cells, group_items.
  destruct (decide (identifiers cols r = ∅)); [|apply merged_column_set].
  simpl. by rewrite row_get_set_same.
Qed.

Lemma merged_column_expansions cols df :
  merged_column (concat (map (expansion cols) df)) = Ok (flat_map (group_cells cols) df).
Proof.
  induction df as [|r df IH]; simpl; [done|].
  apply merged_column_app; [apply merged_column_expansion|exact IH].
Qed.

Lemma expansion_nonempty cols r : expansion cols r <> [].
Proof.
  unfold expansion. destruct (decide (identifiers cols r = ∅)) as [E|E]; [done|].
  intros H%(f_equal length). rewrite length_map, length_sorted_elements in H. simpl in H.
  by apply size_empty_iff, leibniz_equiv in H.
Qed.

Lemma new_frame_rows rows : rows <> [] -> new_frame rows = Ok rows.
Proof. by destruct rows. Qed.

(** A frame with rows gives a frame with rows. *)
Lemma new_frame_expansions cols df :
  df <> [] ->
  new_frame (concat (map (expansion cols) df)) = Ok (concat (map (expansion cols) df)).
Proof.
  destruct df as [|r df]; [done|]. intros _. simpl.
  pose proof (expansion_nonempty cols r). by destruct (expansion cols r).
Qed.


Lemma texts_written_texts (l : list string) :
  Forall (fun c => c <> "") l -> texts_written (map Str l) = l.
Proof.
  unfold texts_written. induction 1 as [|c l Hc _ IH]; [done|]. csimpl.
  destruct c; [done|]. simpl. by rewrite IH.
Qed.

Lemma texts_written_group cols r : texts_written (group_cells cols r) = group_items cols r.
Proof.
  unfold group_cells, group_items. destruct (decide (identifiers cols r = ∅)) as [E|E].
  - by rewrite E, elements_empty.
  - apply texts_written_texts, Forall_forall.
    by intros c (_ & _ & _ & ?)%elem_of_sorted_elements%identifiers_canonical.
Qed.

Lemma texts_written_app l1 l2 :
  texts_written (l1 ++ l2) = texts_written l1 ++ texts_written l2.
Proof. apply omap_app. Qed.

Lemma texts_written_cells cols df :
  texts_written (flat_map (group_cells cols) df) = flat_map (group_items cols) df.
Proof.
  induction df as [|r df IH]; simpl; [done|].
  by rewrite texts_written_app, IH, texts_written_group.
Qed.









End ExcelFacts.

Section ExcelClaims.
Import Py Text Excel.

Lemma expansion_expands_to cols r : expands_to cols r (expansion cols r).
Proof.
  unfold expands_to, expansion. destruct (decide (identifiers cols r = ∅)) as [E|E].
  - exists [""]. simpl. rewrite row_get_set_same. repeat split; try done.
    repeat constructor. intros col Hcol. by apply row_get_set_other.
  - exists (sorted (elements (identifiers cols r))). repeat split; try done.
    + rewrite map_map. apply map_ext. intros c. apply row_get_set_same.
    + rewrite Forall_forall. intros r' (c & <- & _)%list_elem_of_In%in_map_iff col Hcol.
      by apply row_get_set_other.
    + by rewrite length_map, length_sorted_elements.
    + apply sorted_elements_strict.
    + by intros ?%elem_of_sorted_elements.
    + by intros ?%elem_of_sorted_elements.
Qed.

(** C10, as the script has it: the expansion keeps every row of a frame
    whose selected cells hold text or nothing.  The loop then ends normally
    and its output is, row by row and in row order, one group per input row:
    a single row with the empty string in 'Merged Components' when the row
    has no identifier, otherwise as many rows as the row has distinct
    identifiers, listing them in strictly ascending order; every row of a
    group has the values of the input row in all columns other than
    'Merged Components'. *)
Theorem expansion_keeps_every_row (cols : list string) (df : list row) :
  textual cols df = true ->
  exists groups : list (list row),
    expand_rows cols df = Ok (concat groups) /\ Forall2 (expands_to cols) df groups.
Proof.
  intros H. exists (map (expansion cols) df). split; [by apply expand_rows_textual|].
  clear H. induction df as [|r df IH]; simpl; constructor; [apply expansion_expands_to|exact IH].
Qed.

Lemma expansion_keeps_every_row_sample :
  textual sample_columns sample_frame = true /\
  exists groups : list (list row),
    expand_rows sample_columns sample_frame = Ok (concat groups) /\
    Forall2 (expands_to sample_columns) sample_frame groups.
Proof.
  split; [reflexivity|]. apply (expansion_keeps_every_row sample_columns sample_frame). reflexivity.
Defined.




(** Where no identifier spells a missing value, [read_back] returns the
    texts of the column as they were written. *)
Lemma excel_side_unmarked cols df :
  textual cols df = true -> unmarked cols df = true ->
  excel_side cols df = excel_side_read texts_written cols df.
Proof.
  intros H Hna. unfold excel_side, excel_side_read, written_column.
  rewrite expand_rows_textual by done. cbn [mbind result_bind].
  destruct (decide (df = [])) as [->|Hdf]; [done|].
  rewrite new_frame_expansions by done. cbn [mbind result_bind].
  rewrite merged_items_expansions, merged_column_expansions by done. cbn [mbind result_bind].
  by rewrite texts_written_cells.
Qed.

(** The cell of scenario 1: two identifiers, and one count for the row. *)
Example scenario_1_cell :
  let df := [[("Ref", Str "r1, R2,r1")]] in
  elements (identifiers ["Ref"] [("Ref", Str "r1, R2,r1")]) = ["R1"; "R2"] /\
  (map (fun r => row_get r merged_label) <$> expand_rows ["Ref"] df)
    = Ok [Ok (Str "R1"); Ok (Str "R2")] /\
  ((fun side => counter_get side.2 "R1") <$> excel_side ["Ref"] df) = Ok 1 /\
  ((fun side => counter_get side.2 "R1")
     <$> excel_side ["Ref"] (df ++ [[("Ref", Str "R1")]])) = Ok 2.
Proof. vm_compute. repeat split. Qed.

(** A frame without rows: the loop has nothing to do, and line 127 raises. *)
Example frame_without_rows :
  expand_rows ["Ref"] [] = Ok [] /\ excel_side ["Ref"] [] = Raise KeyError.
Proof. split; reflexivity. Qed.

(** A number in a selected column ends the loop with an exception. *)
Example number_in_selected_column :
  expand_rows ["Qty"] sample_frame = Raise AttributeError.
Proof. reflexivity. Qed.

(** C10 as stated fails: with a number in a selected column the loop raises
    at line 110 and no row comes out, the rows before it included; and a
    sheet that has a column 'Merged Components' already does not keep its
    values there. *)
Lemma expansion_loses_rows_and_values :
  expand_rows ["Ref"] [[("Ref", Str "R1")]; [("Ref", Num 7)]] = Raise AttributeError /\
  expand_rows ["Ref"] [[("Merged Components", Str "see note"); ("Ref", Str "r1")]]
    = Ok [[("Merged Components", Str "R1"); ("Ref", Str "r1")]].
Proof. split; vm_compute; reflexivity. Qed.

End ExcelClaims.

(** ** The extraction *)

Section PdfFacts.
Import Py Text Pdf.

Lemma after_nothing s : after s [] [] = s.
Proof. destruct s. unfold after. simpl. by rewrite !app_nil_r. Qed.

Lemma after_after s o1 e1 o2 e2 : after (after s o1 e1) o2 e2 = after s (o1 ++ o2) (e1 ++ e2).
Proof. unfold after. simpl. by rewrite !app_assoc. Qed.

Lemma bind_run {A B} (m : M A) (k : A -> M B) s :
  (m ≫= k) s = match m s with
               | (s', Ok a) => k a s'
               | (s', Raise e) => (s', Raise e)
               end.
Proof. reflexivity. Qed.

(** A loop whose body appends [f x] when [p x] holds. *)
Lemma for_each_append {A} (p : A -> bool) (f : A -> observation) l s :
  for_each l (fun x => when (p x) (append (f x))) s
  = (after s (map f (List.filter p l)) [], Ok tt).
Proof.
  revert s. induction l as [|x l IH]; intros s; simpl.
  - by rewrite after_nothing.
  - rewrite bind_run. destruct (p x); simpl.
    + rewrite IH. unfold after. simpl. by rewrite <- app_assoc.
    + apply IH.
Qed.

Lemma text_layer_run vp doc s :
  text_layer vp doc s = (after s (kept_pages vp 1 (doc_pages doc)) [], Ok tt).
Proof.
  unfold text_layer. generalize 1. revert s.
  induction (doc_pages doc) as [|words pages IH]; intros s n; simpl.
  - by rewrite after_nothing.
  - rewrite bind_run.
    rewrite (for_each_append (fun t => keep_word vp (normalize (text t)))
                             (fun t => (normalize (text t), n, Some t))).
    rewrite IH, after_after. reflexivity.
Qed.

Lemma scan_text_run vp page_num text s :
  scan_text vp page_num text s = (after s (scanned vp page_num text) [], Ok tt).
Proof. apply (for_each_append _ (fun word => (word, page_num, None))). Qed.

Lemma fallback_loop_run {A B} vp (read : A -> result B) (to_text : B -> string) pages n s :
  for_enumerate pages n (fun page_num page =>
      x ← external (read page); scan_text vp page_num (to_text x)) s
  = (after s (scanned_pages vp read to_text n pages).1 [],
     (scanned_pages vp read to_text n pages).2).
Proof.
  revert s n. induction pages as [|page pages IH]; intros s n; simpl.
  - by rewrite after_nothing.
  - rewrite !bind_run. unfold external at 1. destruct (read page) as [x|e]; simpl.
    + rewrite scan_text_run, IH, after_after. reflexivity.
    + by rewrite after_nothing.
Qed.

Lemma ocr_unfold vp doc :
  ocr vp doc
  = try_except (ocr_body vp doc)
               (fun e => emit (Warning ("OCR error: " +:+ message e))).
Proof. reflexivity. Qed.

Lemma pdfplumber_unfold vp doc :
  pdfplumber vp doc
  = try_except (pdfplumber_body vp doc)
               (fun e => emit (Warning ("pdfplumber error: " +:+ message e))).
Proof. reflexivity. Qed.

Lemma ocr_body_run vp doc s :
  ocr_body vp doc s = (after s (ocr_outcome vp doc).1 [Rasterize], (ocr_outcome vp doc).2).
Proof.
  unfold ocr_body, ocr_outcome, outcome. rewrite !bind_run. simpl.
  unfold external at 1. destruct (doc_images doc) as [images|e]; simpl.
  - etrans; [exact (fallback_loop_run vp id upper images 1 _)|].
    unfold after. simpl. by rewrite <- !app_assoc.
  - unfold after. simpl. by rewrite app_nil_r.
Qed.

Lemma pdfplumber_body_run vp doc s :
  pdfplumber_body vp doc s
  = (after s (pdfplumber_outcome vp doc).1 [OpenAlternate], (pdfplumber_outcome vp doc).2).
Proof.
  unfold pdfplumber_body, pdfplumber_outcome, outcome. rewrite !bind_run. simpl.
  unfold external at 1. destruct (doc_plumber doc) as [pages|e]; simpl.
  - etrans; [exact (fallback_loop_run vp id plumber_text pages 1 _)|].
    unfold after. simpl. by rewrite <- !app_assoc.
  - unfold after. simpl. by rewrite app_nil_r.
Qed.

Lemma ocr_run vp doc s :
  ocr vp doc s
  = (after s (ocr_outcome vp doc).1
           (Rasterize :: warning "OCR error: " (ocr_outcome vp doc).2), Ok tt).
Proof.
  rewrite ocr_unfold. unfold try_except. rewrite ocr_body_run.
  destruct (ocr_outcome vp doc).2 as [[]|e]; simpl; [done|].
  unfold emit, after. simpl. by rewrite <- app_assoc.
Qed.

Lemma pdfplumber_run vp doc s :
  pdfplumber vp doc s
  = (after s (pdfplumber_outcome vp doc).1
           (OpenAlternate :: warning "pdfplumber error: " (pdfplumber_outcome vp doc).2), Ok tt).
Proof.
  rewrite pdfplumber_unfold. unfold try_except. rewrite pdfplumber_body_run.
  destruct (pdfplumber_outcome vp doc).2 as [[]|e]; simpl; [done|].
  unfold emit, after. simpl. by rewrite <- app_assoc.
Qed.

(** The whole function, with the control flow resolved. *)
Lemma run_extract_run vp doc :
  run_extract vp doc =
  let found1 := kept_pages vp 1 (doc_pages doc) in
  let o2 := ocr_outcome vp doc in
  let o3 := pdfplumber_outcome vp doc in
  if is_empty found1 then
    if is_empty o2.1 then
      (after initial o3.1 ((Rasterize :: warning "OCR error: " o2.2)
                           ++ OpenAlternate :: warning "pdfplumber error: " o3.2),
       Ok o3.1)
    else (after initial o2.1 (Rasterize :: warning "OCR error: " o2.2), Ok o2.1)
  else (after initial found1 [], Ok found1).
Proof.
  unfold run_extract, extract_components_from_pdf. cbv zeta.
  rewrite bind_run, text_layer_run.
  rewrite bind_run. unfold get_components at 1. cbn [components after initial app].
  rewrite bind_run.
  destruct (kept_pages vp 1 (doc_pages doc)) as [|o1 l1]; cbn [is_empty when].
  - rewrite ocr_run, bind_run. unfold get_components at 1.
    cbn [components after initial app]. rewrite bind_run.
    destruct (ocr_outcome vp doc).1 as [|o2 l2]; cbn [is_empty when].
    + rewrite pdfplumber_run. unfold get_components, after. simpl. reflexivity.
    + unfold mret, M_ret, get_components, after. simpl. reflexivity.
  - unfold mret, M_ret. rewrite bind_run. unfold get_components at 1.
    cbn [components after initial app is_empty when]. reflexivity.
Qed.

End PdfFacts.

Section PdfClaims.
Import Py Text Pdf.

Lemma nonempty_single_or_multi vp p :
  p ∈ vp -> p <> "" -> p ∈ single_letter_prefixes vp \/ p ∈ multi_letter_prefixes vp.
Proof.
  intros Hin Hne. unfold single_letter_prefixes, multi_letter_prefixes.
  rewrite !list_elem_of_In, !filter_In, <- !list_elem_of_In.
  destruct p as [|a [|b p]]; [done|left|right]; by split.
Qed.

Lemma single_or_multi_configured vp p :
  p ∈ single_letter_prefixes vp \/ p ∈ multi_letter_prefixes vp -> p ∈ vp.
Proof.
  unfold single_letter_prefixes, multi_letter_prefixes.
  rewrite !list_elem_of_In, !filter_In. tauto.
Qed.

Lemma existsb_startswith vp w : is_valid_identifier w vp -> existsb (startswith w) vp = true.
Proof.
  intros (p & d & Hin & -> & _). apply existsb_exists. exists p.
  split; [by apply list_elem_of_In|apply startswith_app].
Qed.

(** The test of lines 158-162 on a word made of letters and digits. *)
Lemma keep_word_spec vp w :
  Forall (fun p => p <> "") vp -> all_chars is_alnum w = true ->
  keep_word vp w = true <-> is_valid_identifier w vp.
Proof.
  intros Hvp Hw. unfold keep_word, re_match_prefix. rewrite (alnum_no_newline _ Hw).
  rewrite Forall_forall in Hvp. split.
  - destruct (existsb (startswith w) vp); [|done].
    destruct (existsb _ (single_letter_prefixes vp)) eqn:E1.
    + intros _. apply existsb_prefix_digits in E1 as (p & d & Hin & ? & ?).
      exists p, d. split; [|done]. apply single_or_multi_configured; auto.
    + destruct (existsb _ (multi_letter_prefixes vp)) eqn:E2; [|done].
      intros _. apply existsb_prefix_digits in E2 as (p & d & Hin & ? & ?).
      exists p, d. split; [|done]. apply single_or_multi_configured; auto.
  - intros Hvalid. rewrite (existsb_startswith _ _ Hvalid).
    destruct Hvalid as (p & d & Hin & Hw' & Hd).
    destruct (nonempty_single_or_multi vp p Hin (Hvp p Hin)) as [H1|H2].
    + assert (existsb (fun p => prefix_digits p w) (single_letter_prefixes vp) = true) as ->; [|done].
      apply existsb_prefix_digits. by exists p, d.
    + assert (existsb (fun p => prefix_digits p w) (multi_letter_prefixes vp) = true) as ->.
      { apply existsb_prefix_digits. by exists p, d. }
      by destruct (existsb _ (single_letter_prefixes vp)).
Qed.

Lemma elem_of_kept_words vp n words obs :
  obs ∈ kept_words vp n words <->
  exists t, t ∈ words /\ keep_word vp (normalize (text t)) = true /\
            obs = (normalize (text t), n, Some t).
Proof.
  unfold kept_words. rewrite list_elem_of_In, in_map_iff. split.
  - intros (t & <- & [Ht Hk]%filter_In). exists t. by rewrite list_elem_of_In.
  - intros (t & Ht & Hk & ->). exists t. split; [done|]. apply filter_In.
    by rewrite <- list_elem_of_In.
Qed.

Lemma elem_of_kept_pages vp n pages obs :
  obs ∈ kept_pages vp n pages <->
  exists i words, pages !! i = Some words /\ obs ∈ kept_words vp (n + i) words.
Proof.
  revert n. induction pages as [|words pages IH]; intros n; simpl.
  - split; [by intros ?%elem_of_nil|]. by intros (i & ? & ? & _).
  - rewrite elem_of_app, IH. split.
    + intros [H|(i & ws & Hi & H)].
      * exists 0, words. by rewrite Nat.add_0_r.
      * exists (S i), ws. split; [done|]. by rewrite Nat.add_succ_r.
    + intros ([|i] & ws & Hi & H); simpl in Hi.
      * left. injection Hi as ->. by rewrite Nat.add_0_r in H.
      * right. exists i, ws. split; [done|]. by rewrite Nat.add_succ_r in H.
Qed.

(** C6: the native text layer keeps exactly the valid identifiers.  With
    configured prefixes, the observations of strategy 1 are the tokens of the
    pages, with their page number (from 1) and bounding region, whose
    normalized text is one configured prefix followed by one or more digits
    and nothing else. *)
Theorem text_layer_keeps_valid_identifiers (vp : list string) (doc : document) :
  configured vp = true ->
  forall obs : observation,
    obs ∈ components (text_layer vp doc initial).1 <->
    exists i words t,
      doc_pages doc !! i = Some words /\ t ∈ words /\
      obs = (normalize (text t), S i, Some t) /\
      is_valid_identifier (normalize (text t)) vp.
Proof.
  intros [_ Hne]%configured_nonempty obs. rewrite text_layer_run. simpl.
  rewrite elem_of_kept_pages. split.
  - intros (i & words & Hi & (t & Ht & Hk & ->)%elem_of_kept_words).
    exists i, words, t. repeat split; try done.
    by apply (keep_word_spec vp _ Hne (normalize_alnum _)).
  - intros (i & words & t & Hi & Ht & -> & Hvalid). exists i, words. split; [done|].
    apply elem_of_kept_words. exists t. repeat split; try done.
    by apply (keep_word_spec vp _ Hne (normalize_alnum _)).
Qed.

Lemma text_layer_keeps_valid_identifiers_sample :
  configured Config.default_prefixes = true /\
  forall obs : observation,
    obs ∈ components (text_layer Config.default_prefixes sample_document initial).1 <->
    exists i words t,
      doc_pages sample_document !! i = Some words /\ t ∈ words /\
      obs = (normalize (text t), S i, Some t) /\
      is_valid_identifier (normalize (text t)) Config.default_prefixes.
Proof.
  split; [reflexivity|].
  apply (text_layer_keeps_valid_identifiers Config.default_prefixes sample_document).
  reflexivity.
Defined.

Example text_layer_sample :
  map (fun obs : observation => (obs.1.1, obs.1.2))
      (components (text_layer Config.default_prefixes sample_document initial).1)
  = [("R1", 1); ("LED12", 1); ("R1", 2)].
Proof. reflexivity. Qed.

(** C7: the extraction is a fallback chain.  With configured prefixes, the
    rasterizer is called exactly when strategy 1 found nothing; the second
    text extractor is opened exactly when strategy 1 found nothing and
    strategy 2, having been tried, left nothing either; the list returned is
    that of the first strategy in this order that left a non-empty one (and
    the last one's otherwise). *)
Theorem fallback_chain (vp : list string) (doc : document) :
  configured vp = true ->
  let found1 := components (text_layer vp doc initial).1 in
  let found2 := components (ocr vp doc initial).1 in
  let found3 := components (pdfplumber vp doc initial).1 in
  let final := run_extract vp doc in
  (Rasterize ∈ trace final.1 <-> found1 = []) /\
  (OpenAlternate ∈ trace final.1 <-> found1 = [] /\ found2 = []) /\
  (OpenAlternate ∈ trace final.1 -> Rasterize ∈ trace final.1) /\
  final.2 = Ok (if is_empty found1 then if is_empty found2 then found3 else found2
                else found1).
Proof.
  intros _. cbv zeta. rewrite run_extract_run, text_layer_run, ocr_run, pdfplumber_run. cbv zeta.
  cbn [components after initial app fst snd].
  assert (forall label r, OpenAlternate ∉ Rasterize :: warning label r) as Hno.
  { intros label [[]|e]; simpl; set_solver. }
  destruct (kept_pages vp 1 (doc_pages doc)) as [|o1 l1]; cbn [is_empty].
  - destruct (ocr_outcome vp doc).1 as [|o2 l2]; cbn [is_empty fst snd trace after initial app].
    + split_and!; [split; [done|]|split; [done|]| |done]; intros _.
      * apply elem_of_cons. by left.
      * apply elem_of_cons. right. apply elem_of_app. right. apply elem_of_cons. by left.
      * apply elem_of_cons. by left.
    + split_and!; [split; [done|]|split| |done].
      * intros _. apply elem_of_cons. by left.
      * by intros ?%Hno.
      * by intros [_ ?].
      * intros _. apply elem_of_cons. by left.
  - split_and!; [split|split| |done].
    + by intros ?%elem_of_nil.
    + done.
    + by intros ?%elem_of_nil.
    + by intros [? _].
    + by intros ?%elem_of_nil.
Qed.

Lemma fallback_chain_sample :
  configured Config.default_prefixes = true /\
  let found1 := components (text_layer Config.default_prefixes half_recognized initial).1 in
  let found2 := components (ocr Config.default_prefixes half_recognized initial).1 in
  let found3 := components (pdfplumber Config.default_prefixes half_recognized initial).1 in
  let final := run_extract Config.default_prefixes half_recognized in
  (Rasterize ∈ trace final.1 <-> found1 = []) /\
  (OpenAlternate ∈ trace final.1 <-> found1 = [] /\ found2 = []) /\
  (OpenAlternate ∈ trace final.1 -> Rasterize ∈ trace final.1) /\
  final.2 = Ok (if is_empty found1 then if is_empty found2 then found3 else found2
                else found1).
Proof.
  split; [reflexivity|].
  apply (fallback_chain Config.default_prefixes half_recognized). reflexivity.
Defined.

(** C8, as the script has it: with configured prefixes, an error inside
    strategy 2 or 3 is caught where it arises and surfaced as a warning, and
    the observations the strategy appended before the error stay in the
    list; the extraction as a whole ends normally on every document whose
    text layer can be read, and returns the list it built. *)
Theorem extraction_never_raises (vp : list string) (doc : document) :
  configured vp = true ->
  caught "OCR error: " (ocr_body vp doc) (ocr vp doc) /\
  caught "pdfplumber error: " (pdfplumber_body vp doc) (pdfplumber vp doc) /\
  exists final found, run_extract vp doc = (final, Ok found) /\ found = components final.
Proof.
  intros _. split; [|split].
  - intros s. rewrite ocr_unfold. unfold try_except. by destruct (ocr_body vp doc s) as [s' [[]|e]].
  - intros s. rewrite pdfplumber_unfold. unfold try_except.
    by destruct (pdfplumber_body vp doc s) as [s' [[]|e]].
  - rewrite run_extract_run. cbv zeta.
    destruct (is_empty _); [destruct (is_empty _)|]; eexists _, _; split; try reflexivity;
      unfold after; simpl; reflexivity.
Qed.

Lemma extraction_never_raises_sample :
  configured Config.default_prefixes = true /\
  caught "OCR error: " (ocr_body Config.default_prefixes half_recognized)
         (ocr Config.default_prefixes half_recognized) /\
  caught "pdfplumber error: " (pdfplumber_body Config.default_prefixes half_recognized)
         (pdfplumber Config.default_prefixes half_recognized) /\
  exists final found,
    run_extract Config.default_prefixes half_recognized = (final, Ok found) /\
    found = components final.
Proof.
  split; [reflexivity|].
  apply (extraction_never_raises Config.default_prefixes half_recognized). reflexivity.
Defined.

(** C8 as stated fails: strategy 2 raises on this document, yet it is not
    treated as having produced no observations: its two observations are what
    the extraction returns, and strategy 3 is not tried. *)
Lemma failed_strategy_keeps_observations :
  components (text_layer Config.default_prefixes half_recognized initial).1 = [] /\
  (ocr_body Config.default_prefixes half_recognized initial).2
    = Raise (LibraryError "boom") /\
  (run_extract Config.default_prefixes half_recognized).2
    = Ok [("U7", 1, None); ("U7", 1, None)] /\
  trace (run_extract Config.default_prefixes half_recognized).1
    = [Rasterize; Warning "OCR error: boom"] /\
  components (pdfplumber Config.default_prefixes half_recognized initial).1
    = [("R5", 1, None)].
Proof. vm_compute. repeat split. Qed.

(** Scenario 3: nothing in the text layer, the recognizer reads U7 twice. *)
Example scenario_3 :
  let doc := {| doc_pages := [[]];
                doc_images := Ok [Ok "U7 DAMAGED PART U7"];
                doc_plumber := Ok [] |} in
  run_extract Config.default_prefixes doc
  = ({| components := [("U7", 1, None); ("U7", 1, None)]; trace := [Rasterize] |},
     Ok [("U7", 1, None); ("U7", 1, None)]).
Proof. reflexivity. Qed.

(** The prefixes the script works with are never none and never empty. *)
Lemma valid_prefixes_of_shape prefixes_input :
  Config.valid_prefixes_of prefixes_input <> []
  /\ Forall (fun p => p <> "") (Config.valid_prefixes_of prefixes_input).
Proof.
  unfold Config.valid_prefixes_of.
  assert (Config.default_prefixes <> [] /\ Forall (fun p => p <> "") Config.default_prefixes)
    as Hdefault by (split; [done|by repeat constructor]).
  destruct (truthy prefixes_input); [|exact Hdefault].
  destruct (split_components prefixes_input) as [|p l] eqn:E; [exact Hdefault|].
  split; [done|]. rewrite <- E. apply Forall_forall.
  by intros c (_ & _ & _ & ?)%split_components_canonical.
Qed.

End PdfClaims.

(** ** The condition sets *)

Section AnalysisFacts.
Import Text Excel Pdf Analysis.

Lemma counter_update_app (m : gmap string nat) l1 l2 :
  counter_update m (l1 ++ l2) = counter_update (counter_update m l1) l2.
Proof. unfold counter_update. apply foldl_app. Qed.

Lemma count_items_flat items acc :
  count_items items acc
  = (acc.1 ∪ list_to_set (flat_map split_components items),
     counter_update acc.2 (flat_map split_components items)).
Proof.
  revert acc. induction items as [|item items IH]; intros [X m]; simpl.
  - f_equal. set_solver.
  - rewrite IH. simpl. rewrite counter_update_app, list_to_set_app_L. f_equal. set_solver.
Qed.

Lemma excel_components_words i : excel_components i = list_to_set (excel_words i).
Proof. unfold excel_components. rewrite count_items_flat. simpl. set_solver. Qed.

Lemma excel_counts_words i : excel_counts i = counter_update ∅ (excel_words i).
Proof. unfold excel_counts. by rewrite count_items_flat. Qed.

Lemma elem_of_repeated (m : gmap string nat) c : c ∈ repeated m <-> 1 < counter_get m c.
Proof.
  unfold repeated, counter_get. rewrite elem_of_dom. split.
  - intros [v [Hv Hgt]%map_lookup_filter_Some]. rewrite Hv. exact Hgt.
  - destruct (m !! c) as [v|] eqn:E; simpl; [|lia]. intros Hgt. exists v.
    by apply map_lookup_filter_Some.
Qed.

Lemma repeated_counted l c : c ∈ repeated (counter_update ∅ l) -> c ∈ l.
Proof.
  rewrite elem_of_repeated, counter_get_update, counter_get_empty. intros Hgt.
  destruct (filter (fun x => x = c) l) as [|x ?] eqn:E; simpl in Hgt; [lia|].
  assert (x ∈ filter (fun x => x = c) l) as Hx by (rewrite E; left).
  by apply list_elem_of_filter in Hx as [-> ?].
Qed.

Lemma elem_of_filter_components vp (X : gset string) c :
  c ∈ filter_components vp X <-> re_match_component vp (upper c) = true /\ c ∈ X.
Proof. unfold filter_components. by rewrite elem_of_filter. Qed.

Lemma repeated_pdf_observed i c : c ∈ repeated_pdf i -> c ∈ pdf_components i.
Proof.
  intros [_ H]%elem_of_filter_components. apply repeated_counted in H.
  by apply elem_of_list_to_set.
Qed.

Lemma repeated_excel_declared i c : c ∈ repeated_excel i -> c ∈ excel_components i.
Proof.
  intros [_ H]%elem_of_filter_components. rewrite excel_counts_words in H.
  apply repeated_counted in H. rewrite excel_components_words. by apply elem_of_list_to_set.
Qed.

Lemma in_pdf_not_excel_spec i c :
  c ∈ in_pdf_not_excel i -> c ∈ pdf_components i /\ c ∉ excel_components i.
Proof. intros [_ H]%elem_of_filter_components. by apply elem_of_difference in H. Qed.

Lemma in_excel_not_pdf_spec i c :
  c ∈ in_excel_not_pdf i -> c ∈ excel_components i /\ c ∉ pdf_components i.
Proof. intros [_ H]%elem_of_filter_components. by apply elem_of_difference in H. Qed.

Lemma elem_of_normal i c :
  c ∈ normal i <->
  (c ∈ pdf_components i \/ c ∈ excel_components i) /\
  (c ∉ repeated_pdf i) /\ (c ∉ repeated_excel i) /\
  (c ∉ in_pdf_not_excel i) /\ (c ∉ in_excel_not_pdf i).
Proof.
  unfold normal. rewrite elem_of_difference, !elem_of_union. tauto.
Qed.

(** ** The pattern of [filter_components] *)

Lemma rstrip_fixed_no_newline s : rstrip s = s -> drop_final_newline s = s.
Proof.
  induction s as [|c s IH]; [done|]. simpl.
  destruct (rstrip s) as [|d r] eqn:E.
  - destruct (is_space c) eqn:Hc; [done|]. intros [= <-].
    destruct (Ascii.eqb_spec c "010"%char) as [->|_]; [done|reflexivity].
  - intros [= <-]. rewrite (IH eq_refl). reflexivity.
Qed.

Lemma strip_fixed_rstrip s : strip s = s -> rstrip s = s.
Proof. unfold strip. intros H. rewrite <- H at 1. rewrite rstrip_idem. exact H. Qed.

Lemma trimmed_upper_no_newline c : strip c = c -> drop_final_newline (upper c) = upper c.
Proof.
  intros H. apply rstrip_fixed_no_newline, strip_fixed_rstrip.
  by rewrite strip_upper, H.
Qed.

Lemma re_match_component_spec vp w :
  vp <> [] -> drop_final_newline w = w ->
  re_match_component vp w = true <-> is_letter_number w \/ is_valid_identifier w vp.
Proof.
  intros Hvp Hw. unfold re_match_component. cbv zeta. rewrite Hw, orb_true_iff.
  rewrite letter_digits_spec. assert (alternatives vp = vp) as -> by (by destruct vp).
  by rewrite existsb_prefix_digits.
Qed.

End AnalysisFacts.

Section AnalysisClaims.
Import Text Excel Pdf Analysis.

(** *** The post-filter (C3, C2) *)

(** C3, as the script has it: among identifiers without surrounding white
    space and with configured prefixes, [filter_components] keeps an
    identifier iff its upper-cased form is a single upper-case letter
    followed by one or more digits, whichever letter it is, or a configured
    prefix followed by one or more digits. *)
Theorem filter_components_keeps (vp : list string) (X : gset string) (comp : string) :
  configured vp = true -> strip comp = comp ->
  comp ∈ filter_components vp X <->
  comp ∈ X /\ (is_letter_number (upper comp) \/ is_valid_identifier (upper comp) vp).
Proof.
  intros [Hvp _]%configured_nonempty Hc.
  rewrite elem_of_filter_components, re_match_component_spec;
    [tauto|done|by apply trimmed_upper_no_newline].
Qed.

Lemma filter_components_keeps_sample :
  configured ["R"; "LED"] = true /\ strip "LED7" = "LED7" /\
  ("LED7" ∈ filter_components ["R"; "LED"] {["LED7"; "LEDX"]} <->
   "LED7" ∈ ({["LED7"; "LEDX"]} : gset string) /\
   (is_letter_number (upper "LED7") \/ is_valid_identifier (upper "LED7") ["R"; "LED"])).
Proof.
  split; [reflexivity|]. split; [reflexivity|].
  apply (filter_components_keeps ["R"; "LED"] {["LED7"; "LEDX"]} "LED7"); reflexivity.
Defined.

Lemma not_valid_T1 : ~ is_valid_identifier "T1" ["R"].
Proof.
  intros (p & d & Hp & Heq & _). apply list_elem_of_singleton in Hp as ->. discriminate Heq.
Qed.

(** C3 as stated fails: with [R] the only configured prefix, [T1] is no
    configured prefix followed by digits, and [filter_components] keeps it. *)
Lemma filter_components_keeps_any_letter :
  "T1" ∈ filter_components ["R"] {["T1"]} /\ ~ is_valid_identifier "T1" ["R"].
Proof.
  split; [|exact not_valid_T1].
  apply elem_of_filter_components. split; [reflexivity|]. by apply elem_of_singleton.
Qed.

(** C2, as the script has it: with configured prefixes, an identifier
    without surrounding white space whose upper-cased form is neither a
    configured prefix followed by digits nor a single upper-case letter
    followed by digits is in none of the four filtered sets. *)
Theorem unmatched_identifier_filtered_out (i : inputs) (comp : string) :
  configured (valid_prefixes i) = true -> strip comp = comp ->
  ~ is_valid_identifier (upper comp) (valid_prefixes i) ->
  ~ is_letter_number (upper comp) ->
  (comp ∉ repeated_pdf i) /\ (comp ∉ repeated_excel i) /\
  (comp ∉ in_pdf_not_excel i) /\ (comp ∉ in_excel_not_pdf i).
Proof.
  intros [Hvp _]%configured_nonempty Hc Hv Hl.
  assert (re_match_component (valid_prefixes i) (upper comp) <> true) as Hno.
  { rewrite re_match_component_spec; [tauto|done|by apply trimmed_upper_no_newline]. }
  unfold repeated_pdf, repeated_excel, in_pdf_not_excel, in_excel_not_pdf.
  rewrite !elem_of_filter_components. tauto.
Qed.

Lemma not_valid_THE1 : ~ is_valid_identifier "THE1" Config.default_prefixes.
Proof.
  intros (p & d & Hp & Heq & _). unfold Config.default_prefixes in Hp.
  repeat (apply elem_of_cons in Hp as [->|Hp]; [discriminate Heq|]).
  by apply elem_of_nil in Hp.
Qed.

Lemma not_letter_number_THE1 : ~ is_letter_number "THE1".
Proof. by intros (c & d & _ & [= <- <-] & Hd). Qed.

Lemma unmatched_identifier_filtered_out_sample :
  configured (valid_prefixes stray_inputs) = true /\ strip "THE1" = "THE1" /\
  ~ is_valid_identifier (upper "THE1") (valid_prefixes stray_inputs) /\
  ~ is_letter_number (upper "THE1") /\
  ("THE1" ∉ repeated_pdf stray_inputs) /\ ("THE1" ∉ repeated_excel stray_inputs) /\
  ("THE1" ∉ in_pdf_not_excel stray_inputs) /\ ("THE1" ∉ in_excel_not_pdf stray_inputs).
Proof.
  split; [reflexivity|]. split; [reflexivity|].
  split; [exact not_valid_THE1|]. split; [exact not_letter_number_THE1|].
  apply (unmatched_identifier_filtered_out stray_inputs "THE1");
    [reflexivity|reflexivity|exact not_valid_THE1|exact not_letter_number_THE1].
Defined.

(** C2 as stated fails: [THE1] matches no configured prefix pattern, and it
    is in the normal set; [T1] matches none either ([T] is not configured),
    and it is in the only-in-spreadsheet set. *)
Lemma stray_word_is_normal :
  ~ is_valid_identifier "THE1" (valid_prefixes stray_inputs) /\
  "THE1" ∈ normal stray_inputs /\
  ~ is_valid_identifier "T1" (valid_prefixes stray_inputs) /\
  "T1" ∈ in_excel_not_pdf stray_inputs.
Proof.
  split; [exact not_valid_THE1|]. split; [by apply (bool_decide_unpack _); vm_compute|].
  split; [|by apply (bool_decide_unpack _); vm_compute].
  intros (p & d & Hp & Heq & _). simpl in Hp. unfold Config.default_prefixes in Hp.
  repeat (apply elem_of_cons in Hp as [->|Hp]; [discriminate Heq|]).
  by apply elem_of_nil in Hp.
Qed.

(** Scenario 2: [R1] on two pages and [C3] in the document, [R1] and [D5] in
    the spreadsheet. *)
Example scenario_2 :
  let i := {| valid_prefixes := Config.default_prefixes;
              pdf_components_list := [("R1", 1, None); ("R1", 2, None); ("C3", 1, None)];
              excel_items := ["R1"; "D5"] |} in
  elements (repeated_pdf i) = ["R1"] /\ elements (repeated_excel i) = [] /\
  elements (in_pdf_not_excel i) = ["C3"] /\ elements (in_excel_not_pdf i) = ["D5"] /\
  elements (normal i) = [].
Proof. vm_compute. repeat split. Qed.

End AnalysisClaims.

Section ReportClaims.
Import Text Excel Pdf Analysis.

(** *** The report sheets (C1) *)

Lemma listed_sorted (X : gset string) (f : string -> report_row) k t h :
  (forall c, row_component (f c) = c) ->
  listed {| sheet_key := k; title := t; headers := h; rows := map f (sorted (elements X)) |}
  = sorted (elements X).
Proof.
  intros Hf. unfold listed. simpl. rewrite map_map. rewrite <- (map_id (sorted (elements X))) at 2.
  apply map_ext. exact Hf.
Qed.

Lemma sheets_listing_keys i comp :
  sheets_listing i comp
  = List.filter (fun k => bool_decide (comp ∈ condition_components i k)) all_keys.
Proof.
  unfold sheets_listing, report. change all_keys with (map fst conditions).
  induction conditions as [|[k [[name cname] col]] l IH]; [reflexivity|].
  cbn [map List.filter fst]. rewrite listed_sorted by done.
  rewrite (bool_decide_ext _ _ (elem_of_sorted_elements comp (condition_components i k))).
  destruct (bool_decide (comp ∈ condition_components i k)); cbn [map]; by rewrite IH.
Qed.

Lemma in_report_listing i comp : in_report i comp = true <-> sheets_listing i comp <> [].
Proof.
  unfold in_report, sheets_listing. rewrite existsb_exists.
  split.
  - intros (sh & Hsh & Hc) E. apply map_eq_nil in E.
    assert (In sh (List.filter (fun sh => bool_decide (comp ∈ listed sh)) (report i))) as Hin
      by (by apply (proj2 (filter_In _ sh (report i)))).
    rewrite E in Hin. exact Hin.
  - intros Hne. destruct (List.filter _ (report i)) as [|sh l] eqn:E; [done|].
    exists sh. apply (proj1 (filter_In (fun sh => bool_decide (comp ∈ listed sh)) sh (report i))).
    rewrite E. by left.
Qed.

Lemma filter_keys_of (f : condition_key -> bool) :
  List.filter f all_keys
  = keys_of (f key_repeated_pdf) (f key_repeated_excel) (f key_in_pdf_not_excel)
            (f key_in_excel_not_pdf) (f key_normal).
Proof.
  unfold all_keys, keys_of. simpl.
  by destruct (f key_repeated_pdf), (f key_repeated_excel), (f key_in_pdf_not_excel),
              (f key_in_excel_not_pdf), (f key_normal).
Qed.

Lemma keys_of_overlap (rp re po eo nm : bool) :
  (rp && eo = false) -> (re && po = false) -> (po && eo = false) ->
  (nm && (rp || re || po || eo) = false) ->
  let ks := keys_of rp re po eo nm in
  length ks <= 2 /\ NoDup ks /\ (key_normal ∈ ks -> ks = [key_normal]) /\
  ~ (key_in_pdf_not_excel ∈ ks /\ key_in_excel_not_pdf ∈ ks).
Proof.
  destruct rp, re, po, eo, nm; simpl; try discriminate; intros _ _ _ _;
    (split_and!; [lia|by apply (bool_decide_unpack _)| |]);
    try (intros H; exfalso; revert H; by apply (bool_decide_unpack _));
    try done; try (intros [H1 H2]; revert H1 || revert H2; by apply (bool_decide_unpack _)).
Qed.

(** C1, as the script has it: an identifier of the report is listed on at
    least one and at most two sheets, never twice on the same sheet's key; an
    identifier on the normal sheet is on no other sheet, and no identifier is
    on both the only-in-document and the only-in-spreadsheet sheet. *)
Theorem report_sheets_overlap (i : inputs) (comp : string) :
  in_report i comp = true ->
  let ks := sheets_listing i comp in
  1 <= length ks <= 2 /\ NoDup ks /\ (key_normal ∈ ks -> ks = [key_normal]) /\
  ~ (key_in_pdf_not_excel ∈ ks /\ key_in_excel_not_pdf ∈ ks).
Proof.
  intros Hin%in_report_listing. cbv zeta. revert Hin. rewrite sheets_listing_keys.
  rewrite filter_keys_of. cbn [condition_components].
  intros Hne.
  pose proof (repeated_pdf_observed i comp) as F1.
  pose proof (repeated_excel_declared i comp) as F2.
  pose proof (in_pdf_not_excel_spec i comp) as F3.
  pose proof (in_excel_not_pdf_spec i comp) as F4.
  pose proof (proj1 (elem_of_normal i comp)) as F5.
  destruct (keys_of_overlap (bool_decide (comp ∈ repeated_pdf i))
              (bool_decide (comp ∈ repeated_excel i))
              (bool_decide (comp ∈ in_pdf_not_excel i))
              (bool_decide (comp ∈ in_excel_not_pdf i))
              (bool_decide (comp ∈ normal i))) as (Hlen & Hrest).
  - repeat case_bool_decide; simpl; try done; tauto.
  - repeat case_bool_decide; simpl; try done; tauto.
  - repeat case_bool_decide; simpl; try done; tauto.
  - repeat case_bool_decide; simpl; try done; tauto.
  - split; [|exact Hrest]. split; [|exact Hlen].
    destruct (keys_of _ _ _ _ _); [done|simpl; lia].
Qed.

Lemma report_sheets_overlap_sample :
  in_report twice_undeclared "R1" = true /\
  let ks := sheets_listing twice_undeclared "R1" in
  1 <= length ks <= 2 /\ NoDup ks /\ (key_normal ∈ ks -> ks = [key_normal]) /\
  ~ (key_in_pdf_not_excel ∈ ks /\ key_in_excel_not_pdf ∈ ks).
Proof.
  split; [reflexivity|]. apply (report_sheets_overlap twice_undeclared "R1"). reflexivity.
Defined.

(** C1 as stated fails: [R1] is in the report and is listed on two sheets. *)
Lemma identifier_on_two_sheets :
  in_report twice_undeclared "R1" = true /\
  sheets_listing twice_undeclared "R1" = [key_repeated_pdf; key_in_pdf_not_excel].
Proof. split; reflexivity. Qed.

(** *** The markers (C5) *)

Lemma observed_word i word page_num region :
  (word, page_num, region) ∈ pdf_components_list i -> word ∈ pdf_components i.
Proof.
  intros H. unfold pdf_components, pdf_components_of, pdf_words.
  apply elem_of_list_to_set, list_elem_of_In, in_map_iff.
  exists (word, page_num, region). split; [done|by apply list_elem_of_In].
Qed.

Lemma priority_color_observed i word :
  word ∈ pdf_components i -> priority_color i word = Some (marker_color i word).
Proof.
  intros Hobs. unfold priority_color, marker_color, priority. cbn [List.find fst condition_components].
  destruct (decide (word ∈ in_pdf_not_excel i)) as [H1|H1];
    [by rewrite bool_decide_eq_true_2|rewrite (bool_decide_eq_false_2 _ H1)].
  destruct (decide (word ∈ in_excel_not_pdf i)) as [H2|H2];
    [by rewrite bool_decide_eq_true_2|rewrite (bool_decide_eq_false_2 _ H2)].
  destruct (decide (word ∈ repeated_pdf i)) as [H3|H3];
    [by rewrite bool_decide_eq_true_2|rewrite (bool_decide_eq_false_2 _ H3)].
  destruct (decide (word ∈ repeated_excel i)) as [H4|H4];
    [by rewrite bool_decide_eq_true_2|rewrite (bool_decide_eq_false_2 _ H4)].
  rewrite bool_decide_eq_true_2; [done|]. apply elem_of_normal. tauto.
Qed.

Lemma omap_ext_in {A B} (f g : A -> option B) (l : list A) :
  (forall x, x ∈ l -> f x = g x) -> omap f l = omap g l.
Proof.
  induction l as [|x l IH]; intros H; csimpl; [done|].
  rewrite (H x) by left. rewrite IH; [done|]. intros y Hy. apply H. by right.
Qed.

(** C5: the marker colour follows the priority order.  The annotations
    [highlight_components] adds are, observation by observation, those whose
    stroke is the colour of the first of only-in-document (yellow),
    only-in-spreadsheet (blue), repeated-in-document (red),
    repeated-in-spreadsheet (cyan), normal (green) that contains the
    observation's identifier; observations without bounding region get none.
    Each set has in this order the colour the table [conditions] gives it. *)
Theorem marker_color_by_priority (i : inputs) :
  highlight_components i = priority_highlights i /\
  Forall (fun kc => exists name color_name, (kc.1, (name, color_name, kc.2)) ∈ conditions)
         priority.
Proof.
  split.
  - unfold highlight_components, priority_highlights. apply omap_ext_in.
    intros [[word page_num] [t|]] Hin; [|done].
    by rewrite (priority_color_observed i word (observed_word _ _ _ _ Hin)).
  - unfold priority, conditions.
    repeat (apply Forall_cons; split;
            [do 2 eexists; apply list_elem_of_In; simpl; eauto 10|]).
    apply Forall_nil. done.
Qed.

(** Repeated in the document and absent from the spreadsheet: yellow. *)
Example marker_of_repeated_undeclared :
  let i := {| valid_prefixes := Config.default_prefixes;
              pdf_components_list := [("R1", 1, Some (sample_word "R1"));
                                      ("R1", 2, Some (sample_word "r1"));
                                      ("C3", 2, None)];
              excel_items := ["C3"] |} in
  map (fun h => (page_index h, stroke h)) (highlight_components i) = [(0, yellow); (1, yellow)].
Proof. reflexivity. Qed.

End ReportClaims.

(** ** The files of an execution (C4) *)

Section RunClaims.
Import Run.

Lemma unlink_if_exists_run path fs : unlink_if_exists path fs = (fs ∖ {[path]}, inl tt).
Proof.
  unfold unlink_if_exists, unlink. destruct (decide (path ∈ fs)); [done|].
  f_equal. set_solver.
Qed.

Lemma run_all_well env fs :
  all_well env = true ->
  run env fs
  = (({[output_report_file env]} ∪ ({[output_pdf_file env]} ∪ ({[output_excel_file env]}
        ∪ ({[input_pdf_file env]} ∪ ({[input_excel_file env]} ∪ fs)))))
       ∖ {[input_excel_file env]} ∖ {[input_pdf_file env]} ∖ {[output_excel_file env]}
       ∖ {[output_pdf_file env]} ∖ {[output_report_file env]},
     Processed).
Proof.
  unfold all_well, run, script. intros H. repeat (apply andb_true_iff in H as [H ?]).
  unfold seq, guarded, unguarded, create, unlink, nothing, finish.
  destruct env; simpl in *; subst. by rewrite !unlink_if_exists_run.
Qed.

Lemma run_not_well env fs :
  all_well env = false ->
  (run env fs).2 <> Processed /\
  input_excel_file env ∈ (run env fs).1 /\ input_pdf_file env ∈ (run env fs).1.
Proof.
  unfold all_well, run, script, seq, guarded, unguarded, create, nothing, finish.
  destruct env as [te tp bn ok1 pressed ok2 ok3 ok4 ok5 ok6 ok7 ok8 ok9 ok10]; simpl.
  destruct ok1; simpl; [|intros _; split_and!; [done|set_solver..]].
  destruct pressed; simpl; [|intros _; split_and!; [done|set_solver..]].
  destruct ok2; simpl; [|intros _; split_and!; [done|set_solver..]].
  destruct ok3; simpl; [|intros _; split_and!; [done|set_solver..]].
  destruct ok4; simpl; [|intros _; split_and!; [done|set_solver..]].
  destruct ok5; simpl; [|intros _; split_and!; [done|set_solver..]].
  destruct ok6; simpl; [|intros _; split_and!; [done|set_solver..]].
  destruct ok7; simpl; [|intros _; split_and!; [done|set_solver..]].
  destruct ok8; simpl; [|intros _; split_and!; [done|set_solver..]].
  destruct ok9; simpl; [|intros _; split_and!; [done|set_solver..]].
  destruct ok10; simpl; [done|intros _; split_and!; [done|set_solver..]].
Qed.

(** C4, as the script has it: the temporary copies and the generated
    outputs are deleted at the end of an execution that went through the
    whole processing block, which it does exactly when the button was
    pressed, every guarded operation succeeded and no statement outside a
    [try] raised; an execution that is stopped at an error, that ends at an
    uncaught exception, or that never enters the processing block, leaves
    its temporary copies of the uploads on disk. *)
Theorem cleanup_only_after_processing (env : environment) (fs : gset string) :
  let final := run env fs in
  (final.2 = Processed <-> all_well env = true) /\
  (final.2 = Processed -> Forall (fun path => path ∉ final.1) (own_files env)) /\
  (final.2 <> Processed ->
     input_excel_file env ∈ final.1 /\ input_pdf_file env ∈ final.1).
Proof.
  cbv zeta. destruct (all_well env) eqn:E.
  - rewrite (run_all_well env fs E). simpl. split_and!; [done| |done].
    intros _. unfold own_files. repeat (apply Forall_cons; split; [set_solver|]).
    by apply Forall_nil.
  - destruct (run_not_well env fs E) as (Hne & H1 & H2). split_and!; [split|done|done].
    + by intros ?.
    + done.
Qed.

(** C4 as stated fails: the execution ends at the error of lines 264-269 and
    both temporary copies and the modified spreadsheet are still on disk. *)
Lemma stopped_run_leaves_files :
  (run pdf_save_fails ∅).2 = Stopped "Error saving PDF" /\
  input_excel_file pdf_save_fails ∈ (run pdf_save_fails ∅).1 /\
  input_pdf_file pdf_save_fails ∈ (run pdf_save_fails ∅).1 /\
  output_excel_file pdf_save_fails ∈ (run pdf_save_fails ∅).1.
Proof. split; [reflexivity|]. split_and!; by apply (bool_decide_unpack _); vm_compute. Qed.

(** An execution that goes well leaves nothing of its own behind; one whose
    expansion raises leaves both temporary copies and ends without a word
    from the script. *)
Example smooth_run : run smooth ∅ = (∅, Processed).
Proof.
  rewrite (run_all_well smooth ∅ eq_refl). f_equal; set_solver.
Qed.

Example uncaught_run_leaves_files :
  (run expansion_raises ∅).2 = Uncaught /\
  input_excel_file expansion_raises ∈ (run expansion_raises ∅).1 /\
  input_pdf_file expansion_raises ∈ (run expansion_raises ∅).1.
Proof. split; [reflexivity|]. split_and!; by apply (bool_decide_unpack _); vm_compute. Qed.

End RunClaims.

(** * Further properties of the script *)

(** ** Tokens, identifiers and prefixes *)

Section MoreTextFacts.
Import Text Config Pdf Frontend.
Local Arguments Ascii.eqb : simpl never.

Ltac by_char c :=
  destruct c as [[] [] [] [] [] [] [] []]; vm_compute; try reflexivity; try discriminate.

Lemma alnum_not_space c : is_alnum c = true -> is_space c = false.
Proof. by_char c. Qed.

Lemma upper_digit_distinct c : is_upper c = true -> is_digit c = true -> False.
Proof. by_char c. Qed.

Lemma upper_char_upper c : is_upper c = true -> upper_char c = c.
Proof. by_char c. Qed.

Lemma upper_char_digit c : is_digit c = true -> upper_char c = c.
Proof. by_char c. Qed.

Lemma upper_is_alnum c : is_upper c = true -> is_alnum c = true.
Proof. by_char c. Qed.

Lemma digit_is_alnum c : is_digit c = true -> is_alnum c = true.
Proof. by_char c. Qed.

Lemma lower_upper_char c : lower_char (upper_char c) = lower_char c.
Proof. by_char c. Qed.

Lemma lower_upper s : lower (upper s) = lower s.
Proof. induction s as [|c s IH]; simpl; [done|]. by rewrite lower_upper_char, IH. Qed.

Lemma keep_chars_all p s : all_chars p s = true -> keep_chars p s = s.
Proof.
  induction s as [|c s IH]; simpl; [done|].
  intros [Hc Hs]%andb_true_iff. by rewrite Hc, (IH Hs).
Qed.

Lemma rstrip_no_space s : all_chars (fun c => negb (is_space c)) s = true -> rstrip s = s.
Proof.
  induction s as [|c s IH]; simpl; [done|].
  intros [Hc Hs]%andb_true_iff. apply negb_true_iff in Hc. rewrite (IH Hs), Hc. by destruct s.
Qed.

Lemma strip_no_space s : all_chars (fun c => negb (is_space c)) s = true -> strip s = s.
Proof.
  intros H. unfold strip. rewrite lstrip_clean; [by apply rstrip_no_space|].
  destruct s as [|c s]; simpl in *; [done|].
  apply andb_true_iff in H as [Hc _]. by apply negb_true_iff in Hc.
Qed.

Lemma strip_alnum s : all_chars is_alnum s = true -> strip s = s.
Proof.
  intros H. apply strip_no_space. revert H. apply all_chars_impl.
  intros c Hc. by rewrite (alnum_not_space _ Hc).
Qed.

(** X1: normalizing a token twice is normalizing it once. *)
Theorem normalize_idempotent (raw : string) : normalize (normalize raw) = normalize raw.
Proof.
  pose proof (normalize_alnum raw) as Halnum.
  unfold normalize at 1. rewrite (strip_alnum _ Halnum), (keep_chars_all _ _ Halnum).
  unfold normalize. apply upper_idem.
Qed.

(** X2: every identifier taken from a cell is in canonical form (not empty,
    trimmed, upper-case, without a comma), and splitting it again gives the
    identifier itself, which is what the second split of line 147 relies on. *)
Theorem split_components_stable (s c : string) :
  c ∈ split_components s -> canonical c /\ split_components c = [c].
Proof.
  intros Hc%split_components_canonical. split; [done|].
  by apply split_components_of_canonical.
Qed.

Lemma split_components_stable_sample :
  "R2" ∈ split_components "r1, R2,r1" /\ canonical "R2" /\ split_components "R2" = ["R2"].
Proof.
  split; [by apply (bool_decide_unpack _); vm_compute|].
  apply (split_components_stable "r1, R2,r1" "R2"). by apply (bool_decide_unpack _); vm_compute.
Defined.

Lemma is_canonical_spec c : is_canonical c = true <-> canonical c.
Proof.
  unfold is_canonical, canonical. rewrite !andb_true_iff, !String.eqb_eq.
  destruct c; simpl; intuition congruence.
Qed.

Lemma forallb_canonical l : forallb is_canonical l = true <-> Forall canonical l.
Proof.
  rewrite forallb_forall, Forall_forall. split; intros H c Hc.
  - by apply is_canonical_spec, H, list_elem_of_In.
  - by apply is_canonical_spec, H, list_elem_of_In.
Qed.

(** X3: whatever the operator types, the script works with at least one
    prefix, and every prefix is in canonical form: not empty, trimmed,
    upper-case, without a comma. *)
Theorem valid_prefixes_never_empty (prefixes_input : string) :
  valid_prefixes_of prefixes_input <> [] /\ Forall canonical (valid_prefixes_of prefixes_input).
Proof.
  unfold valid_prefixes_of.
  assert (default_prefixes <> [] /\ Forall canonical default_prefixes) as Hdefault.
  { split; [done|]. by apply forallb_canonical. }
  destruct (truthy prefixes_input); [|exact Hdefault].
  destruct (split_components prefixes_input) as [|p l] eqn:E; [exact Hdefault|].
  split; [done|]. rewrite <- E. apply Forall_forall. intros c. apply split_components_canonical.
Qed.

Lemma append_cons c (s t : string) : String c s +:+ t = String c (s +:+ t).
Proof. reflexivity. Qed.

Lemma split_comma_app x rest :
  comma_free x = true -> split_comma (x +:+ "," +:+ rest) = x :: split_comma rest.
Proof.
  unfold comma_free. induction x as [|c x IH]; [done|].
  rewrite append_cons. simpl. intros [Hc Hx]%andb_true_iff. apply negb_true_iff in Hc.
  by rewrite Hc, (IH Hx).
Qed.

Lemma split_comma_join l :
  l <> [] -> Forall (fun c => comma_free c = true) l -> split_comma (join_comma l) = l.
Proof.
  induction l as [|x [|y l] IH]; [done| |]; intros _ Hl.
  - apply split_comma_free. by inversion Hl.
  - inversion Hl as [|? ? Hx Hrest]; subst.
    change (join_comma (x :: y :: l)) with (x +:+ "," +:+ join_comma (y :: l)).
    rewrite split_comma_app by done. by rewrite IH.
Qed.

Lemma map_filter_canonical l :
  Forall canonical l ->
  map (fun comp => upper (strip comp)) (List.filter (fun comp => truthy (strip comp)) l) = l.
Proof.
  induction 1 as [|c l (Hs & Hu & _ & Hne) _ IH]; simpl; [done|].
  rewrite Hs. destruct c; [done|]. simpl. by rewrite Hs, Hu, IH.
Qed.

Lemma split_components_join l :
  l <> [] -> Forall canonical l -> split_components (join_comma l) = l.
Proof.
  intros Hne Hl. unfold split_components. rewrite split_comma_join; [by apply map_filter_canonical|done|].
  eapply Forall_impl; [exact Hl|]. by intros c (_ & _ & ? & _).
Qed.

Lemma truthy_join l : l <> [] -> Forall canonical l -> truthy (join_comma l) = true.
Proof.
  destruct l as [|x [|y l]]; [done| |]; intros _ Hl; inversion Hl as [|? ? (_ & _ & _ & Hx) _]; subst.
  - by destruct x.
  - change (join_comma (x :: y :: l)) with (x +:+ "," +:+ join_comma (y :: l)). by destruct x.
Qed.

(** X4: the prefix field round trip.  Prefixes in canonical form, joined by
    commas as the field's initial value is, are read back as they were; so
    the field left untouched configures the default prefixes. *)
Theorem prefixes_round_trip (l : list string) :
  l <> [] -> forallb is_canonical l = true -> valid_prefixes_of (join_comma l) = l.
Proof.
  intros Hne Hl%forallb_canonical. unfold valid_prefixes_of.
  rewrite truthy_join, split_components_join by done. by destruct l.
Qed.

Lemma prefixes_round_trip_default :
  default_prefixes <> [] /\ forallb is_canonical default_prefixes = true /\
  valid_prefixes_of prefixes_field_default = default_prefixes.
Proof.
  split; [done|]. split; [reflexivity|].
  apply (prefixes_round_trip default_prefixes); [done|reflexivity].
Defined.

Lemma prefix_app_r p x t : String.prefix p x = true -> String.prefix p (x +:+ t) = true.
Proof.
  revert x. induction p as [|a p IH]; intros x; [intros _; by destruct (x +:+ t)|].
  destruct x as [|b x]; [done|]. rewrite append_cons. simpl.
  destruct (ascii_dec a b); [apply IH|done].
Qed.

Lemma drop_final_newline_prefix w : exists t, w = drop_final_newline w +:+ t.
Proof.
  induction w as [|c w IH]; [by exists ""|]. simpl.
  destruct w as [|d w].
  - destruct (Ascii.eqb c "010"%char); [by exists (String c "")|by exists ""].
  - destruct IH as [t Ht]. exists t. rewrite append_cons. by rewrite <- Ht.
Qed.

Lemma re_match_startswith p w : re_match_prefix p w = true -> startswith w p = true.
Proof.
  unfold re_match_prefix. intros (d & Hw & _)%prefix_digits_spec.
  destruct (drop_final_newline_prefix w) as [t Ht]. rewrite Ht, Hw.
  unfold startswith. apply prefix_app_r. apply startswith_app.
Qed.

(** X5: with configured prefixes, a word of the text layer is kept exactly
    when the pattern of some prefix matches it: the [startswith] test of
    line 158 excludes nothing the patterns of lines 159 and 161 would
    accept. *)
Theorem keep_word_pattern_only (vp : list string) (word : string) :
  configured vp = true ->
  (keep_word vp word = true <-> exists p, p ∈ vp /\ re_match_prefix p word = true).
Proof.
  intros [_ Hvp]%configured_nonempty. rewrite Forall_forall in Hvp.
  cut (keep_word vp word = true <->
       exists p, p ∈ vp /\ p <> "" /\ re_match_prefix p word = true).
  { intros ->. split; intros (p & Hp & H); exists p; [tauto|]. split_and!; [done| |done].
    by apply Hvp. }
  unfold keep_word. split.
  - destruct (existsb (startswith word) vp); [|done].
    destruct (existsb _ (single_letter_prefixes vp)) eqn:E1.
    + intros _. apply existsb_exists in E1 as (p & Hp & Hm). exists p.
      apply filter_In in Hp as [Hp Hlen]. split; [by apply list_elem_of_In|]. by destruct p.
    + destruct (existsb _ (multi_letter_prefixes vp)) eqn:E2; [|done].
      intros _. apply existsb_exists in E2 as (p & Hp & Hm). exists p.
      apply filter_In in Hp as [Hp Hlen]. split; [by apply list_elem_of_In|]. by destruct p.
  - intros (p & Hp & Hne & Hm).
    assert (existsb (startswith word) vp = true) as ->.
    { apply existsb_exists. exists p. split; [by apply list_elem_of_In|by apply re_match_startswith]. }
    destruct (nonempty_single_or_multi vp p Hp Hne) as [H1|H2].
    + assert (existsb (fun p => re_match_prefix p word) (single_letter_prefixes vp) = true) as ->; [|done].
      apply existsb_exists. exists p. by rewrite <- list_elem_of_In.
    + assert (existsb (fun p => re_match_prefix p word) (multi_letter_prefixes vp) = true) as ->.
      { apply existsb_exists. exists p. by rewrite <- list_elem_of_In. }
      by destruct (existsb _ (single_letter_prefixes vp)).
Qed.

Lemma keep_word_pattern_only_sample :
  configured default_prefixes = true /\
  (keep_word default_prefixes "LED12" = true <->
   exists p, p ∈ default_prefixes /\ re_match_prefix p "LED12" = true).
Proof.
  split; [reflexivity|]. apply (keep_word_pattern_only default_prefixes "LED12"). reflexivity.
Defined.

(** X6: the check of the uploads does not look at the case of the file
    names, and it shows no error when it accepts and exactly one when it
    refuses (the second file is not looked at once the first is refused). *)
Theorem validate_uploads_case_and_errors (excel_file pdf_file : option string) :
  (validate_uploads (upper <$> excel_file) (upper <$> pdf_file)).1
    = (validate_uploads excel_file pdf_file).1 /\
  length (validate_uploads excel_file pdf_file).2
    = if (validate_uploads excel_file pdf_file).1 then 0 else 1.
Proof.
  unfold validate_uploads, validate_file.
  destruct excel_file as [e|], pdf_file as [p|]; simpl; rewrite ?lower_upper;
    repeat (destruct (endswith _ _); simpl); done.
Qed.

End MoreTextFacts.

(** ** The spreadsheet side *)

Section MoreExcelFacts.
Import Py Text Excel Analysis.

Lemma row_get_raises r col e : row_get r col = Raise e -> e = KeyError.
Proof.
  induction r as [|[label v] r IH]; simpl; [by intros [= <-]|].
  by destruct (String.eqb label col).
Qed.

Lemma cell_components_raises c e : cell_components c = Raise e -> e = AttributeError.
Proof. destruct c; simpl; congruence. Qed.

Lemma row_components_ok cols r acc X :
  row_components cols r acc = Ok X -> textual_row cols r = true.
Proof.
  revert acc. induction cols as [|col cols IH]; intros acc; simpl; [done|].
  destruct (row_get r col) as [[|s|n]|e]; simpl; try done; intros H; by apply IH in H.
Qed.

Lemma row_components_raises cols r acc e :
  row_components cols r acc = Raise e -> e = KeyError \/ e = AttributeError.
Proof.
  revert acc. induction cols as [|col cols IH]; intros acc; simpl; [done|].
  destruct (row_get r col) as [c|e'] eqn:Hget; simpl.
  - destruct (cell_components c) as [comps|e''] eqn:Hc; simpl; [apply IH|].
    intros [= <-]. right. by apply cell_components_raises in Hc.
  - intros [= <-]. left. by apply row_get_raises in Hget.
Qed.

Lemma expand_rows_ok cols df rows :
  expand_rows cols df = Ok rows -> textual cols df = true.
Proof.
  revert rows. induction df as [|r df IH]; intros rows; simpl; [done|].
  unfold expand_row. destruct (row_components cols r ∅) as [X|e] eqn:Hr; simpl; [|done].
  destruct (expand_rows cols df) as [rest|e]; simpl; [|done]. intros _.
  by rewrite (row_components_ok _ _ _ _ Hr), (IH rest).
Qed.

Lemma expand_rows_raises cols df e :
  expand_rows cols df = Raise e -> e = KeyError \/ e = AttributeError.
Proof.
  induction df as [|r df IH]; simpl; [done|].
  unfold expand_row. destruct (row_components cols r ∅) as [X|e'] eqn:Hr; simpl.
  - destruct (expand_rows cols df) as [rest|e'']; simpl; [done|]. intros [= <-]. by apply IH.
  - intros [= <-]. by apply row_components_raises in Hr.
Qed.

(** X7: the expansion loop ends normally exactly on the frames whose selected
    columns exist and hold text or nothing in every row; on any other frame
    it raises, a [KeyError] for a missing column or an [AttributeError] for a
    cell that is neither text nor missing, and no row is produced. *)
Theorem expansion_succeeds_iff_textual (cols : list string) (df : list row) :
  ((exists rows, expand_rows cols df = Ok rows) <-> textual cols df = true) /\
  (forall e, expand_rows cols df = Raise e -> e = KeyError \/ e = AttributeError).
Proof.
  split; [split|].
  - intros [rows H]. by apply expand_rows_ok in H.
  - intros H. eexists. by apply expand_rows_textual.
  - apply expand_rows_raises.
Qed.

Lemma identifiers_nil r : identifiers [] r = ∅.
Proof. reflexivity. Qed.

Lemma merged_items_blank (df : list row) :
  merged_items (map (fun r => row_set r merged_label (Str "")) df) = Ok [].
Proof.
  induction df as [|r df IH]; simpl; [done|]. by rewrite row_get_set_same, IH.
Qed.

(** X8: with no column selected (the selection starts empty), every row
    comes out once with an empty 'Merged Components', whatever the cells
    hold; the spreadsheet side of the comparison is then empty when the
    sheet has rows, and on a sheet without rows line 127 raises. *)
Theorem no_column_selected (df : list row) :
  expand_rows [] df = Ok (map (fun r => row_set r merged_label (Str "")) df) /\
  excel_side [] df = match df with
                     | [] => Raise KeyError
                     | _ => Ok (∅, ∅)
                     end.
Proof.
  assert (expand_rows [] df = Ok (map (fun r => row_set r merged_label (Str "")) df)) as H.
  { induction df as [|r df IH]; simpl; [done|]. rewrite IH. unfold expand_row. simpl.
    by rewrite decide_True. }
  split; [exact H|]. unfold excel_side. rewrite H. destruct df as [|r df]; [done|].
  cbn [mbind result_bind]. rewrite new_frame_rows by done.
  cbn [mbind result_bind]. by rewrite merged_items_blank.
Qed.

Lemma identifiers_same_columns cols cols' r :
  (forall col, col ∈ cols <-> col ∈ cols') -> identifiers cols' r = identifiers cols r.
Proof.
  intros Hcols. unfold identifiers. apply set_eq. intros c.
  rewrite !elem_of_list_to_set, !list_elem_of_In, !in_flat_map.
  split; intros (col & Hcol & Hc); exists col; (split; [|done]);
    by apply list_elem_of_In, Hcols, list_elem_of_In.
Qed.

Lemma textual_row_same_columns cols cols' r :
  (forall col, col ∈ cols <-> col ∈ cols') -> textual_row cols r = true ->
  textual_row cols' r = true.
Proof.
  intros Hcols. unfold textual_row. rewrite !forallb_forall. intros H col Hcol.
  by apply H, list_elem_of_In, Hcols, list_elem_of_In.
Qed.

(** X9: the expansion depends on which columns are selected, not on the
    order in which they were picked nor on a column picked twice. *)
Theorem selection_order_irrelevant (cols cols' : list string) (df : list row) :
  (forall col, col ∈ cols <-> col ∈ cols') -> textual cols df = true ->
  expand_rows cols' df = expand_rows cols df /\ excel_side cols' df = excel_side cols df.
Proof.
  intros Hcols Hdf.
  assert (expand_rows cols' df = expand_rows cols df) as H.
  { rewrite (expand_rows_textual cols df Hdf). rewrite expand_rows_textual.
    - do 2 f_equal. apply map_ext. intros r. unfold expansion.
      by rewrite (identifiers_same_columns cols cols' r Hcols).
    - unfold textual in *. rewrite forallb_forall in *. intros r Hr.
      by apply (textual_row_same_columns cols cols' r Hcols), Hdf. }
  split; [exact H|]. unfold excel_side. by rewrite H.
Qed.

Lemma selection_order_irrelevant_sample :
  (forall col, col ∈ ["Ref"; "Alt"] <-> col ∈ ["Alt"; "Ref"; "Alt"]) /\
  textual ["Ref"; "Alt"] sample_frame = true /\
  expand_rows ["Alt"; "Ref"; "Alt"] sample_frame = expand_rows ["Ref"; "Alt"] sample_frame /\
  excel_side ["Alt"; "Ref"; "Alt"] sample_frame = excel_side ["Ref"; "Alt"] sample_frame.
Proof.
  assert (forall col : string, col ∈ ["Ref"; "Alt"] <-> col ∈ ["Alt"; "Ref"; "Alt"]) as H.
  { intros col. rewrite !elem_of_cons, elem_of_nil. tauto. }
  split; [exact H|]. split; [reflexivity|].
  apply (selection_order_irrelevant ["Ref"; "Alt"] ["Alt"; "Ref"; "Alt"] sample_frame H).
  reflexivity.
Defined.

(** ** The counters *)

Lemma pdf_counts_dom i : dom (pdf_counts i) = pdf_components i.
Proof.
  unfold pdf_counts, pdf_counts_of, pdf_components, pdf_components_of.
  rewrite counter_dom_update, dom_empty_L. apply (left_id_L ∅ (∪)).
Qed.

Lemma excel_counts_dom i : dom (excel_counts i) = excel_components i.
Proof.
  rewrite excel_counts_words, excel_components_words, counter_dom_update, dom_empty_L.
  apply (left_id_L ∅ (∪)).
Qed.

(** X10: on both sides the keys of the counter are exactly the set of
    identifiers, and no key has the count zero. *)
Theorem counters_match_sets (i : inputs) :
  dom (pdf_counts i) = pdf_components i /\ dom (excel_counts i) = excel_components i /\
  (forall c, c ∈ pdf_components i <-> 1 <= counter_get (pdf_counts i) c) /\
  (forall c, c ∈ excel_components i <-> 1 <= counter_get (excel_counts i) c).
Proof.
  assert (forall (m : gmap string nat) l c, m = counter_update ∅ l ->
            c ∈ dom m <-> 1 <= counter_get m c) as Hpos.
  { intros m l c ->. rewrite elem_of_dom. unfold counter_get. split.
    - intros [n Hn]. rewrite Hn. simpl.
      eapply counter_update_positive; [|exact Hn]. intros k n'. by rewrite lookup_empty.
    - destruct (counter_update ∅ l !! c); simpl; [eauto|lia]. }
  split_and!.
  - apply pdf_counts_dom.
  - apply excel_counts_dom.
  - intros c. rewrite <- pdf_counts_dom. by apply (Hpos _ (pdf_words (pdf_components_list i))).
  - intros c. rewrite <- excel_counts_dom. apply (Hpos _ (excel_words i)), excel_counts_words.
Qed.

Lemma length_filter_map {A} (f : A -> string) (c : string) (l : list A) :
  length (filter (fun x => x = c) (map f l)) = length (filter (fun a => f a = c) l).
Proof.
  induction l as [|a l IH]; simpl; [done|].
  rewrite !filter_cons. destruct (decide (f a = c)); simpl; by rewrite IH.
Qed.

(** X11: a counter gives each identifier the number of times it occurs: in
    the document the number of its observations, in the spreadsheet the
    number of its occurrences among the identifiers of the re-read column. *)
Theorem counters_count_occurrences (i : inputs) (c : string) :
  counter_get (pdf_counts i) c = observations_of c (pdf_components_list i) /\
  counter_get (excel_counts i) c = length (filter (fun x => x = c) (excel_words i)).
Proof.
  split.
  - unfold pdf_counts, pdf_counts_of, pdf_words, observations_of.
    by rewrite counter_get_update, counter_get_empty, length_filter_map.
  - by rewrite excel_counts_words, counter_get_update, counter_get_empty.
Qed.

End MoreExcelFacts.

(** ** Conditions, report and markers *)

Section MoreAnalysisFacts.
Import Py Text Excel Pdf Analysis Frontend.

Lemma elem_of_count (c : string) (l : list string) :
  c ∈ l <-> 1 <= length (filter (fun x => x = c) l).
Proof.
  induction l as [|x l IH]; simpl.
  - split; [by intros ?%elem_of_nil|lia].
  - rewrite filter_cons, elem_of_cons. destruct (decide (x = c)) as [->|Hne]; simpl.
    + split; [lia|by left].
    + rewrite <- IH. split; [by intros [->|?]|by right].
Qed.

Lemma observed_iff_counted i c : c ∈ pdf_components i <-> 1 <= counter_get (pdf_counts i) c.
Proof.
  unfold pdf_components, pdf_components_of, pdf_counts, pdf_counts_of.
  by rewrite counter_get_update, counter_get_empty, elem_of_list_to_set, elem_of_count.
Qed.

Lemma declared_iff_counted i c : c ∈ excel_components i <-> 1 <= counter_get (excel_counts i) c.
Proof.
  rewrite excel_components_words, excel_counts_words.
  by rewrite counter_get_update, counter_get_empty, elem_of_list_to_set, elem_of_count.
Qed.

(** X12: what the normal set holds.  An identifier that passes the pattern
    of [filter_components] is normal exactly when it occurs once in the
    document and once in the spreadsheet; an identifier that does not pass it
    is normal as soon as it occurs on either side. *)
Theorem normal_characterized (i : inputs) (c : string) :
  c ∈ normal i <->
  if re_match_component (valid_prefixes i) (upper c)
  then counter_get (pdf_counts i) c = 1 /\ counter_get (excel_counts i) c = 1
  else c ∈ pdf_components i \/ c ∈ excel_components i.
Proof.
  rewrite elem_of_normal. unfold repeated_pdf, repeated_excel, in_pdf_not_excel, in_excel_not_pdf.
  rewrite !elem_of_filter_components, !elem_of_repeated, !elem_of_difference.
  destruct (re_match_component (valid_prefixes i) (upper c)).
  - rewrite !observed_iff_counted, !declared_iff_counted. split; [|lia].
    intros (H0 & H1 & H2 & H3 & H4).
    assert (~ 1 < counter_get (pdf_counts i) c) by tauto.
    assert (~ 1 < counter_get (excel_counts i) c) by tauto.
    assert (~ (1 <= counter_get (pdf_counts i) c /\ ~ 1 <= counter_get (excel_counts i) c)) by tauto.
    assert (~ (1 <= counter_get (excel_counts i) c /\ ~ 1 <= counter_get (pdf_counts i) c)) by tauto.
    lia.
  - split; [tauto|]. intros H. split; [done|]. split_and!; by intros [? _].
Qed.

Lemma report_sheets i :
  report i = map (fun '(key, (condition_name, color_name, _)) =>
                    sheet_of i key condition_name color_name) conditions.
Proof. reflexivity. Qed.

Lemma elem_of_report i sh :
  sh ∈ report i <->
  exists key name color_name color,
    (key, (name, color_name, color)) ∈ conditions /\ sh = sheet_of i key name color_name.
Proof.
  rewrite report_sheets, list_elem_of_In, in_map_iff. split.
  - intros ([key [[name color_name] color]] & <- & Hin). exists key, name, color_name, color.
    by rewrite list_elem_of_In.
  - intros (key & name & color_name & color & Hin & ->).
    exists (key, (name, color_name, color)). by rewrite <- list_elem_of_In.
Qed.

Lemma listed_sheet_of i key name color_name :
  listed (sheet_of i key name color_name) = sorted (elements (condition_components i key)).
Proof. unfold sheet_of. by apply listed_sorted. Qed.

Lemma elem_of_rows_sheet_of i key name color_name r :
  r ∈ rows (sheet_of i key name color_name) <->
  exists comp, comp ∈ condition_components i key /\
    r = {| row_condition := name; row_component := comp;
           row_count := repeat_count i key comp; row_color := color_name |}.
Proof.
  unfold sheet_of. simpl. rewrite list_elem_of_In, in_map_iff. split.
  - intros (comp & <- & Hin%list_elem_of_In%elem_of_sorted_elements). eauto.
  - intros (comp & Hin & ->). exists comp. split; [done|].
    by apply list_elem_of_In, elem_of_sorted_elements.
Qed.

Lemma least_count_row i key comp :
  comp ∈ condition_components i key -> least_count key <= repeat_count i key comp.
Proof.
  destruct key; simpl.
  - by intros [_ ?%elem_of_repeated]%elem_of_filter_components.
  - by intros [_ ?%elem_of_repeated]%elem_of_filter_components.
  - by intros [?%observed_iff_counted _]%in_pdf_not_excel_spec.
  - by intros [?%declared_iff_counted _]%in_excel_not_pdf_spec.
  - intros ([?%observed_iff_counted|?%declared_iff_counted] & _)%elem_of_normal; lia.
Qed.

(** X13: the count a report row shows is never zero, and on the two
    'Repeated' sheets it is at least two. *)
Theorem report_counts_at_least (i : inputs) :
  Forall (fun sh => Forall (fun r => least_count (sheet_key sh) <= row_count r) (rows sh))
         (report i).
Proof.
  apply Forall_forall. intros sh (key & name & color_name & color & _ & ->)%elem_of_report.
  apply Forall_forall. intros r (comp & Hcomp & ->)%elem_of_rows_sheet_of. simpl.
  by apply least_count_row.
Qed.

(** X14: the report has one sheet for each condition, in the order of
    [conditions]; each sheet lists exactly the identifiers of its condition
    set, each once and in strictly ascending order, and every row repeats the
    sheet's title and names the colour of the sheet's condition. *)
Theorem report_sheets_in_order (i : inputs) :
  map sheet_key (report i) = all_keys /\ Forall (sheet_in_order i) (report i).
Proof.
  split; [reflexivity|].
  apply Forall_forall. intros sh (key & name & color_name & color & Hin & ->)%elem_of_report.
  unfold sheet_in_order. rewrite listed_sheet_of. split_and!.
  - apply sorted_elements_strict.
  - intros c. apply elem_of_sorted_elements.
  - apply Forall_forall. intros r (comp & _ & ->)%elem_of_rows_sheet_of. simpl. eauto.
Qed.

Lemma length_rows_sheet_of i key name color_name :
  length (rows (sheet_of i key name color_name)) = size (condition_components i key).
Proof. unfold sheet_of. simpl. by rewrite length_map, length_sorted_elements. Qed.

(** X15: the four lines of the summary on screen are, in order, the titles
    and the numbers of rows of the first four sheets of the report. *)
Theorem summary_counts_sheet_rows (i : inputs) :
  summary i = map (fun sh => summary_line (title sh) (length (rows sh))) (take 4 (report i)).
Proof.
  rewrite report_sheets. unfold conditions. cbn [map take].
  rewrite !length_rows_sheet_of. reflexivity.
Qed.

Lemma marker_color_cases i word :
  word ∈ pdf_components i ->
  (marker_color i word = yellow /\ word ∈ in_pdf_not_excel i) \/
  (marker_color i word = red /\ word ∈ repeated_pdf i) \/
  (marker_color i word = cyan /\ word ∈ repeated_excel i) \/
  (marker_color i word = green /\ word ∈ normal i).
Proof.
  intros Hobs. unfold marker_color.
  destruct (decide (word ∈ in_pdf_not_excel i)) as [?|H1]; [by left|].
  destruct (decide (word ∈ in_excel_not_pdf i)) as [[_ H]%in_excel_not_pdf_spec|H2]; [done|].
  destruct (decide (word ∈ repeated_pdf i)) as [?|H3]; [by right; left|].
  destruct (decide (word ∈ repeated_excel i)) as [?|H4]; [by right; right; left|].
  right; right; right. split; [done|]. apply elem_of_normal. tauto.
Qed.

Lemma elem_of_highlights i h :
  h ∈ highlight_components i ->
  exists word page_num t,
    (word, page_num, Some t) ∈ pdf_components_list i /\ stroke h = marker_color i word /\
    page_index h = page_num - 1 /\ region h = marker_rect t.
Proof.
  unfold highlight_components. rewrite list_elem_of_omap.
  intros ([[word page_num] [t|]] & Hin & Hh); [|done]. injection Hh as <-.
  exists word, page_num, t. done.
Qed.

(** X16: no marker is ever blue.  Blue is the colour of only-in-spreadsheet,
    and a marker is drawn for an identifier seen in the document. *)
Theorem marker_never_blue (i : inputs) :
  Forall (fun h => stroke h <> blue) (highlight_components i).
Proof.
  apply Forall_forall. intros h (word & page_num & t & Hin & -> & _)%elem_of_highlights.
  destruct (marker_color_cases i word (observed_word _ _ _ _ Hin))
    as [[-> _]|[[-> _]|[[-> _]|[-> _]]]]; done.
Qed.

Lemma sheet_of_in_report i key name color_name color :
  (key, (name, color_name, color)) ∈ conditions -> sheet_of i key name color_name ∈ report i.
Proof. intros H. apply elem_of_report. eauto 10. Qed.

(** X17: the marker and the report agree.  An identifier marked in the
    document is listed on the report sheet whose condition has the marker's
    colour in [conditions]. *)
Theorem markers_agree_with_report (i : inputs) :
  Forall (marker_matches_sheet i) (pdf_components_list i).
Proof.
  apply Forall_forall. intros [[word page_num] [t|]] Hin; [|done]. simpl.
  assert (forall key name color_name,
            (key, (name, color_name, marker_color i word)) ∈ conditions ->
            word ∈ condition_components i key ->
            exists sh color_name, sh ∈ report i /\ word ∈ listed sh /\
              (sheet_key sh, (title sh, color_name, marker_color i word)) ∈ conditions) as Hsheet.
  { intros key name color_name Hc Hw. exists (sheet_of i key name color_name), color_name.
    split; [by eapply sheet_of_in_report|]. split; [|done].
    rewrite listed_sheet_of. by apply elem_of_sorted_elements. }
  destruct (marker_color_cases i word (observed_word _ _ _ _ Hin))
    as [[E H]|[[E H]|[[E H]|[E H]]]]; rewrite E in *.
  - apply (Hsheet key_in_pdf_not_excel "In PDF, not in Excel" "Yellow"); [|done].
    unfold conditions. rewrite !elem_of_cons. tauto.
  - apply (Hsheet key_repeated_pdf "Repeated in PDF" "Red"); [|done].
    unfold conditions. rewrite !elem_of_cons. tauto.
  - apply (Hsheet key_repeated_excel "Repeated in Excel" "Cyan"); [|done].
    unfold conditions. rewrite !elem_of_cons. tauto.
  - apply (Hsheet key_normal "Normal" "Green"); [|done].
    unfold conditions. rewrite !elem_of_cons. tauto.
Qed.

End MoreAnalysisFacts.

(** ** The extraction and what follows it *)

Section MoreExtractionFacts.
Import Py Text Excel Pdf Analysis.
Local Arguments Ascii.eqb : simpl never.

Lemma take_digits_digits s : all_chars is_digit (take_digits s) = true.
Proof.
  induction s as [|c s IH]; simpl; [done|].
  destruct (is_digit c) eqn:Hc; simpl; [by rewrite Hc|done].
Qed.

Lemma digits_here_spec s d : digits_here s = Some d -> digits1 d = true.
Proof.
  unfold digits_here, digits1. pose proof (take_digits_digits s) as H.
  destruct (take_digits s); [done|]. intros [= <-]. by rewrite H.
Qed.

Lemma letter_digits_here_spec s w : letter_digits_here s = Some w -> is_letter_number w.
Proof.
  destruct s as [|c s]; simpl; [done|]. destruct (is_upper c) eqn:Hc; [|done].
  destruct (digits_here s) as [d|] eqn:Hd; simpl; [|done]. intros [= <-].
  exists c, d. split; [done|]. split; [done|]. by apply digits_here_spec in Hd.
Qed.

Lemma prefix_digits_here_spec pre s w :
  prefix_digits_here pre s = Some w -> exists d, w = pre +:+ d /\ digits1 d = true.
Proof.
  unfold prefix_digits_here. destruct (after_prefix pre s) as [rest|]; simpl; [|done].
  destruct (digits_here rest) as [d|] eqn:Hd; simpl; [|done]. intros [= <-].
  exists d. split; [done|]. by apply digits_here_spec in Hd.
Qed.

Lemma first_match_spec pres s w : first_match pres s = Some w -> is_valid_identifier w pres.
Proof.
  induction pres as [|pre pres IH]; simpl; [done|].
  destruct (prefix_digits_here pre s) as [w'|] eqn:E.
  - intros [= <-]. apply prefix_digits_here_spec in E as (d & ? & ?).
    exists pre, d. split; [left|done].
  - intros (p & d & ? & ? & ?)%IH. exists p, d. split; [by right|done].
Qed.

Lemma match_here_spec multi s w :
  match_here multi s = Some w ->
  is_letter_number w \/ is_valid_identifier w (alternatives multi).
Proof.
  unfold match_here. destruct (letter_digits_here s) as [w'|] eqn:E.
  - intros [= <-]. left. by apply letter_digits_here_spec in E.
  - intros ?%first_match_spec. by right.
Qed.

Lemma findall_from_spec multi k s w :
  w ∈ findall_from multi k s ->
  is_letter_number w \/ is_valid_identifier w (alternatives multi).
Proof.
  revert k. induction s as [|c s IH]; intros k; simpl; [by intros ?%elem_of_nil|].
  destruct k as [|k]; [|apply IH].
  destruct (match_here multi (String c s)) as [w'|] eqn:E; [|apply IH].
  intros [->|H]%elem_of_cons; [by apply match_here_spec in E|by apply IH in H].
Qed.

Lemma prefix_cons a p b w :
  String.prefix (String a p) (String b w) = true -> a = b /\ String.prefix p w = true.
Proof. simpl. by destruct (ascii_dec a b). Qed.

Lemma alphabetic_spec vp :
  alphabetic vp = true ->
  vp <> [] /\ Forall (fun p => p <> "" /\ all_chars is_upper p = true) vp.
Proof.
  unfold alphabetic. destruct vp as [|p0 ps]; [done|]. intros H. split; [done|].
  rewrite forallb_forall in H. apply Forall_forall. intros p Hp%list_elem_of_In.
  specialize (H p Hp). apply andb_true_iff in H as [H ?]. split; [by destruct p|done].
Qed.

(** With alphabetic prefixes, the prefix a letter-and-digits word starts with
    is its letter. *)
Lemma letter_number_startswith p w :
  p <> "" -> all_chars is_upper p = true -> is_letter_number w ->
  startswith w p = true -> exists d, w = p +:+ d /\ digits1 d = true.
Proof.
  intros Hne Hp (c & d & Hc & -> & Hd). unfold startswith.
  destruct p as [|a p]; [done|]. intros [<- Hpre]%prefix_cons.
  destruct p as [|b p]; [by exists d|]. exfalso.
  unfold digits1 in Hd. destruct d as [|b' d]; [done|].
  apply prefix_cons in Hpre as [<- _]. simpl in Hp, Hd.
  apply andb_true_iff in Hp as [_ Hp]. apply andb_true_iff in Hp as [Hb _].
  apply andb_true_iff in Hd as [Hb' _]. exact (upper_digit_distinct b Hb Hb').
Qed.

Lemma digits_startswith p w :
  p <> "" -> all_chars is_upper p = true -> digits1 w = true -> startswith w p = false.
Proof.
  intros Hne Hp Hw. apply not_true_is_false. unfold startswith.
  destruct p as [|a p]; [done|]. unfold digits1 in Hw. destruct w as [|b w]; [done|].
  intros [<- _]%prefix_cons. simpl in Hp, Hw.
  apply andb_true_iff in Hp as [Ha _]. apply andb_true_iff in Hw as [Ha' _].
  exact (upper_digit_distinct a Ha Ha').
Qed.

Lemma scanned_valid vp n text obs :
  alphabetic vp = true -> obs ∈ scanned vp n text ->
  is_valid_identifier obs.1.1 vp /\ page_of obs = n /\ has_region obs = false.
Proof.
  intros [_ Hvp]%alphabetic_spec. unfold scanned.
  intros (w & <- & [Hw Hstart]%filter_In)%list_elem_of_In%in_map_iff.
  split; [|done]. simpl. rewrite Forall_forall in Hvp.
  apply existsb_exists in Hstart as (p & Hp%list_elem_of_In & Hstart).
  destruct (Hvp p Hp) as [Hne Hupper].
  apply list_elem_of_In, findall_from_spec in Hw as [Hl|(m & d & Hm & -> & Hd)].
  - destruct (letter_number_startswith p w Hne Hupper Hl Hstart) as (d & -> & Hd).
    by exists p, d.
  - destruct (multi_letter_prefixes vp) as [|m0 ms] eqn:E.
    + simpl in Hm. apply list_elem_of_singleton in Hm as ->.
      change ("" +:+ d) with d in Hstart. by rewrite (digits_startswith p d Hne Hupper Hd) in Hstart.
    + exists m, d. split; [|done]. simpl in Hm. rewrite <- E in Hm.
      unfold multi_letter_prefixes in Hm. apply list_elem_of_In, filter_In in Hm as [Hm _].
      by apply list_elem_of_In.
Qed.

Lemma scanned_pages_spec {A B} vp (read : A -> result B) (to_text : B -> string) n pages obs :
  alphabetic vp = true -> obs ∈ (scanned_pages vp read to_text n pages).1 ->
  is_valid_identifier obs.1.1 vp /\ n <= page_of obs /\ has_region obs = false.
Proof.
  intros Hvp. revert n. induction pages as [|page pages IH]; intros n; simpl.
  - by intros ?%elem_of_nil.
  - destruct (read page) as [x|e]; simpl; [|by intros ?%elem_of_nil].
    intros [H|H]%elem_of_app.
    + apply (scanned_valid vp n _ obs Hvp) in H as (? & -> & ?). done.
    + apply IH in H as (? & ? & ?). split_and!; [done|lia|done].
Qed.

Lemma kept_pages_spec vp n pages obs :
  Forall (fun p => p <> "") vp -> obs ∈ kept_pages vp n pages ->
  is_valid_identifier obs.1.1 vp /\ n <= page_of obs < n + length pages /\ has_region obs = true.
Proof.
  intros Hvp (i & words & Hi & (t & _ & Hk & ->)%elem_of_kept_words)%elem_of_kept_pages.
  apply lookup_lt_Some in Hi. split_and!; simpl; [|unfold page_of; simpl; lia..|done].
  by apply (keep_word_spec vp _ Hvp (normalize_alnum _)).
Qed.

(** The list the function returns, with the control flow resolved. *)
Lemma extracted_cases vp doc :
  extracted vp doc =
  if is_empty (kept_pages vp 1 (doc_pages doc)) then
    if is_empty (ocr_outcome vp doc).1 then (pdfplumber_outcome vp doc).1
    else (ocr_outcome vp doc).1
  else kept_pages vp 1 (doc_pages doc).
Proof.
  unfold extracted. rewrite run_extract_run. cbv zeta.
  by destruct (is_empty (kept_pages vp 1 (doc_pages doc))), (is_empty (ocr_outcome vp doc).1).
Qed.

Lemma alphabetic_nonempty vp : alphabetic vp = true -> Forall (fun p => p <> "") vp.
Proof. intros [_ H]%alphabetic_spec. eapply Forall_impl; [exact H|]. by intros p [? _]. Qed.

Lemma extracted_spec vp doc obs :
  alphabetic vp = true -> obs ∈ extracted vp doc ->
  is_valid_identifier obs.1.1 vp /\ 1 <= page_of obs /\
  (has_region obs = true -> page_of obs <= length (doc_pages doc)).
Proof.
  intros Hvp. rewrite extracted_cases.
  destruct (is_empty (kept_pages vp 1 (doc_pages doc))).
  - assert (obs ∈ (ocr_outcome vp doc).1 \/ obs ∈ (pdfplumber_outcome vp doc).1 ->
            is_valid_identifier obs.1.1 vp /\ 1 <= page_of obs /\ has_region obs = false) as H.
    { unfold ocr_outcome, pdfplumber_outcome, outcome. intros [H|H].
      - destruct (doc_images doc); [by apply scanned_pages_spec in H|by apply elem_of_nil in H].
      - destruct (doc_plumber doc); [by apply scanned_pages_spec in H|by apply elem_of_nil in H]. }
    destruct (is_empty (ocr_outcome vp doc).1); intros Hin;
      (destruct H as (? & ? & Hr); [tauto|]; rewrite Hr; by split_and!).
  - intros (? & ? & ?)%kept_pages_spec; [|by apply alphabetic_nonempty].
    split_and!; [done|lia|lia].
Qed.

(** X18: with alphabetic prefixes, every identifier the extraction returns,
    from whichever strategy, is a configured prefix followed by one or more
    digits, and its page number is at least 1. *)
Theorem extraction_returns_valid_identifiers (vp : list string) (doc : document) :
  alphabetic vp = true ->
  Forall (fun obs : observation => is_valid_identifier obs.1.1 vp /\ 1 <= page_of obs)
         (extracted vp doc).
Proof.
  intros Hvp. apply Forall_forall. intros obs Hobs.
  by apply (extracted_spec vp doc obs Hvp) in Hobs as (? & ? & _).
Qed.

End MoreExtractionFacts.

Section ExtractionThenAnalysis.
Import Py Text Excel Pdf Analysis.
Local Arguments Ascii.eqb : simpl never.

Lemma extraction_returns_valid_identifiers_sample :
  alphabetic Config.default_prefixes = true /\
  Forall (fun obs : observation =>
            is_valid_identifier obs.1.1 Config.default_prefixes /\ 1 <= page_of obs)
         (extracted Config.default_prefixes half_recognized).
Proof.
  split; [reflexivity|].
  apply (extraction_returns_valid_identifiers Config.default_prefixes half_recognized).
  reflexivity.
Defined.

Lemma upper_app s t : upper (s +:+ t) = upper s +:+ upper t.
Proof. induction s as [|c s IH]; [done|]. rewrite append_cons. simpl. by rewrite IH. Qed.

Lemma all_chars_app p s t : all_chars p (s +:+ t) = all_chars p s && all_chars p t.
Proof.
  induction s as [|c s IH]; [done|]. rewrite append_cons. simpl. by rewrite IH, andb_assoc.
Qed.

Lemma upper_fixed (q : ascii -> bool) s :
  (forall c, q c = true -> upper_char c = c) -> all_chars q s = true -> upper s = s.
Proof.
  intros Hq. induction s as [|c s IH]; simpl; [done|].
  intros [Hc Hs]%andb_true_iff. by rewrite (Hq c Hc), (IH Hs).
Qed.

Lemma valid_passes_filter vp w :
  alphabetic vp = true -> is_valid_identifier w vp -> re_match_component vp (upper w) = true.
Proof.
  intros [Hne Hvp]%alphabetic_spec (p & d & Hp & -> & Hd).
  rewrite Forall_forall in Hvp. destruct (Hvp p Hp) as [_ Hupper].
  pose proof Hd as Hd'. unfold digits1 in Hd'. apply andb_true_iff in Hd' as [_ Hdigits].
  assert (upper (p +:+ d) = p +:+ d) as ->.
  { rewrite upper_app, (upper_fixed is_upper p upper_char_upper Hupper).
    by rewrite (upper_fixed is_digit d upper_char_digit Hdigits). }
  apply re_match_component_spec; [done| |right; by exists p, d].
  apply alnum_no_newline. rewrite all_chars_app.
  rewrite (all_chars_impl is_upper is_alnum p upper_is_alnum Hupper).
  by rewrite (all_chars_impl is_digit is_alnum d digit_is_alnum Hdigits).
Qed.

Lemma elem_of_pdf_components i c :
  c ∈ pdf_components i <-> exists obs, obs ∈ pdf_components_list i /\ obs.1.1 = c.
Proof.
  unfold pdf_components, pdf_components_of, pdf_words.
  rewrite elem_of_list_to_set, list_elem_of_In, in_map_iff.
  split; intros (obs & ? & ?); exists obs; by rewrite ?list_elem_of_In in *.
Qed.

(** X19: with alphabetic prefixes the post-filter removes nothing from the
    two document-side sets: every identifier the extraction returned passes
    the pattern of [filter_components]. *)
Theorem post_filter_keeps_document_side (vp : list string) (doc : document)
    (items : list string) :
  alphabetic vp = true ->
  let i := analysed vp doc items in
  repeated_pdf i = repeated (pdf_counts i) /\
  in_pdf_not_excel i = pdf_components i ∖ excel_components i.
Proof.
  intros Hvp i.
  assert (forall c, c ∈ pdf_components i -> re_match_component vp (upper c) = true) as Hpass.
  { intros c (obs & Hobs & <-)%elem_of_pdf_components.
    apply valid_passes_filter; [done|].
    by apply (extracted_spec vp doc obs Hvp) in Hobs as (? & _). }
  split; apply set_eq; intros c.
  - unfold repeated_pdf. rewrite elem_of_filter_components. split; [by intros [_ ?]|].
    intros H. split; [|done]. apply Hpass. apply repeated_counted in H.
    by apply elem_of_list_to_set.
  - unfold in_pdf_not_excel. rewrite elem_of_filter_components. split; [by intros [_ ?]|].
    intros H. split; [|done]. apply Hpass. by apply elem_of_difference in H as [? _].
Qed.

Lemma post_filter_keeps_document_side_sample :
  alphabetic Config.default_prefixes = true /\
  let i := analysed Config.default_prefixes sample_document ["R1"; "D5"] in
  repeated_pdf i = repeated (pdf_counts i) /\
  in_pdf_not_excel i = pdf_components i ∖ excel_components i.
Proof.
  split; [reflexivity|].
  apply (post_filter_keeps_document_side Config.default_prefixes sample_document ["R1"; "D5"]).
  reflexivity.
Defined.

Lemma kept_pages_region vp n pages obs :
  obs ∈ kept_pages vp n pages ->
  has_region obs = true /\ n <= page_of obs < n + length pages.
Proof.
  intros (i & words & Hi & (t & _ & _ & ->)%elem_of_kept_words)%elem_of_kept_pages.
  apply lookup_lt_Some in Hi. unfold page_of. simpl. split; [done|lia].
Qed.

Lemma scanned_region vp n text obs :
  obs ∈ scanned vp n text -> has_region obs = false /\ page_of obs = n.
Proof.
  unfold scanned. by intros (w & <- & _)%list_elem_of_In%in_map_iff.
Qed.

Lemma scanned_pages_region {A B} vp (read : A -> result B) (to_text : B -> string) n pages obs :
  obs ∈ (scanned_pages vp read to_text n pages).1 -> has_region obs = false /\ n <= page_of obs.
Proof.
  revert n. induction pages as [|page pages IH]; intros n; simpl; [by intros ?%elem_of_nil|].
  destruct (read page) as [x|e]; simpl; [|by intros ?%elem_of_nil].
  intros [[? ->]%scanned_region|[? ?]%IH]%elem_of_app; split; (done || lia).
Qed.

Lemma fallback_region vp doc obs :
  obs ∈ (ocr_outcome vp doc).1 \/ obs ∈ (pdfplumber_outcome vp doc).1 ->
  has_region obs = false.
Proof.
  unfold ocr_outcome, pdfplumber_outcome, outcome. intros [H|H].
  - destruct (doc_images doc); [by apply scanned_pages_region in H as [? _]|by apply elem_of_nil in H].
  - destruct (doc_plumber doc); [by apply scanned_pages_region in H as [? _]|by apply elem_of_nil in H].
Qed.

Lemma highlights_none i :
  Forall (fun obs => has_region obs = false) (pdf_components_list i) ->
  highlight_components i = [].
Proof.
  unfold highlight_components. induction 1 as [|[[w n] [t|]] l Hr _ IH]; csimpl; [done..|].
  exact IH.
Qed.

Lemma highlights_all i :
  Forall (fun obs => has_region obs = true) (pdf_components_list i) ->
  length (highlight_components i) = length (pdf_components_list i).
Proof.
  unfold highlight_components. induction 1 as [|[[w n] [t|]] l Hr _ IH]; csimpl; [done| |done].
  by rewrite IH.
Qed.

(** X20: with configured prefixes, the returned list never mixes
    observations with and without a bounding region.  When the text layer
    gave something, the list is that of the text layer, every observation
    has its region and gets a marker; when it gave nothing, no observation
    has a region and no marker is drawn, whatever the fallbacks found. *)
Theorem regions_all_or_none (vp : list string) (doc : document) (items : list string) :
  configured vp = true ->
  let found1 := components (text_layer vp doc initial).1 in
  let i := analysed vp doc items in
  if is_empty found1
  then Forall (fun obs => has_region obs = false) (extracted vp doc) /\
       highlight_components i = []
  else extracted vp doc = found1 /\
       Forall (fun obs => has_region obs = true) (extracted vp doc) /\
       length (highlight_components i) = length (extracted vp doc).
Proof.
  intros _. cbv zeta. rewrite text_layer_run. cbn [fst components after initial app].
  pose proof (extracted_cases vp doc) as Hcases.
  destruct (kept_pages vp 1 (doc_pages doc)) as [|o l] eqn:E; cbn [is_empty] in *.
  - assert (Forall (fun obs => has_region obs = false) (extracted vp doc)) as Hnone.
    { rewrite Hcases. apply Forall_forall. intros obs Hobs. apply (fallback_region vp doc).
      destruct (is_empty (ocr_outcome vp doc).1); auto. }
    split; [done|]. by apply highlights_none.
  - assert (Forall (fun obs => has_region obs = true) (extracted vp doc)) as Hall.
    { rewrite Hcases, <- E. apply Forall_forall. by intros obs [? _]%kept_pages_region. }
    split_and!; [done|done|]. by apply highlights_all.
Qed.

Lemma regions_all_or_none_sample :
  configured Config.default_prefixes = true /\
  let found1 := components (text_layer Config.default_prefixes sample_document initial).1 in
  let i := analysed Config.default_prefixes sample_document ["R1"] in
  if is_empty found1
  then Forall (fun obs => has_region obs = false)
              (extracted Config.default_prefixes sample_document) /\
       highlight_components i = []
  else extracted Config.default_prefixes sample_document = found1 /\
       Forall (fun obs => has_region obs = true)
              (extracted Config.default_prefixes sample_document) /\
       length (highlight_components i) = length (extracted Config.default_prefixes sample_document).
Proof.
  split; [reflexivity|].
  apply (regions_all_or_none Config.default_prefixes sample_document ["R1"]). reflexivity.
Defined.

(** X21: a marker is always put on a page the document has: the index
    [page_num - 1] of line 221 is below the number of pages. *)
Theorem marker_page_in_range (vp : list string) (doc : document) (items : list string) :
  Forall (fun h => page_index h < length (doc_pages doc))
         (highlight_components (analysed vp doc items)).
Proof.
  apply Forall_forall. intros h (word & n & t & Hin & _ & -> & _)%elem_of_highlights.
  simpl in Hin. rewrite extracted_cases in Hin.
  destruct (is_empty (kept_pages vp 1 (doc_pages doc))).
  - assert (has_region (word, n, Some t) = false) as Hr; [|done].
    apply (fallback_region vp doc). destruct (is_empty (ocr_outcome vp doc).1); auto.
  - apply kept_pages_region in Hin as [_ Hn]. unfold page_of in Hn. simpl in Hn. lia.
Qed.

Lemma constant_sorted (n : nat) l : Forall (fun x => x = n) l -> StronglySorted le l.
Proof.
  induction 1 as [|x l -> Hl IH]; constructor; [done|].
  eapply Forall_impl; [exact Hl|]. intros y ->. done.
Qed.

Lemma kept_pages_sorted vp n pages : StronglySorted le (map page_of (kept_pages vp n pages)).
Proof.
  revert n. induction pages as [|words pages IH]; intros n; simpl; [constructor|].
  rewrite map_app. apply StronglySorted_app. split_and!.
  - intros x1 x2 (o1 & <- & H1)%list_elem_of_In%in_map_iff (o2 & <- & H2)%list_elem_of_In%in_map_iff.
    apply list_elem_of_In, elem_of_kept_words in H1 as (t & _ & _ & ->).
    apply list_elem_of_In, kept_pages_region in H2 as [_ H2]. unfold page_of in *. simpl. lia.
  - apply (constant_sorted n). apply Forall_forall.
    intros x (o & <- & Ho)%list_elem_of_In%in_map_iff.
    by apply list_elem_of_In, elem_of_kept_words in Ho as (t & _ & _ & ->).
  - apply IH.
Qed.

Lemma scanned_pages_sorted {A B} vp (read : A -> result B) (to_text : B -> string) n pages :
  StronglySorted le (map page_of (scanned_pages vp read to_text n pages).1).
Proof.
  revert n. induction pages as [|page pages IH]; intros n; simpl; [constructor|].
  destruct (read page) as [x|e]; simpl; [|constructor].
  rewrite map_app. apply StronglySorted_app. split_and!.
  - intros x1 x2 (o1 & <- & H1)%list_elem_of_In%in_map_iff (o2 & <- & H2)%list_elem_of_In%in_map_iff.
    apply list_elem_of_In, scanned_region in H1 as [_ ->].
    apply list_elem_of_In, scanned_pages_region in H2 as [_ H2]. lia.
  - apply (constant_sorted n). apply Forall_forall.
    intros y (o & <- & Ho)%list_elem_of_In%in_map_iff.
    by apply list_elem_of_In, scanned_region in Ho as [_ ->].
  - apply IH.
Qed.

(** X22: the observations are returned in page order: down the list the
    page numbers never decrease. *)
Theorem observations_in_page_order (vp : list string) (doc : document) :
  StronglySorted le (map page_of (extracted vp doc)).
Proof.
  rewrite extracted_cases.
  destruct (is_empty (kept_pages vp 1 (doc_pages doc))); [|apply kept_pages_sorted].
  unfold ocr_outcome, pdfplumber_outcome, outcome.
  destruct (is_empty _).
  - destruct (doc_plumber doc); [apply scanned_pages_sorted|constructor].
  - destruct (doc_images doc); [apply scanned_pages_sorted|constructor].
Qed.

End ExtractionThenAnalysis.

(** ** Files and layout *)

Section MoreRunFacts.
Import Run.

Lemma outputs_distinct env :
  NoDup [output_excel_file env; output_pdf_file env; output_report_file env].
Proof.
  unfold output_excel_file, output_pdf_file, output_report_file.
  assert (forall s t : string, s <> t -> base_name env +:+ s <> base_name env +:+ t) as Hinj.
  { intros s t Hst E. by apply (inj (String.app (base_name env))) in E. }
  repeat constructor; rewrite ?elem_of_cons, ?elem_of_nil.
  - intros [E|[E|[]]]; revert E; by apply Hinj.
  - intros [E|[]]; revert E; by apply Hinj.
  - by intros [].
Qed.

Lemma not_own_file env path :
  path ∉ own_files env ->
  path <> input_excel_file env /\ path <> input_pdf_file env /\ path <> output_excel_file env /\
  path <> output_pdf_file env /\ path <> output_report_file env.
Proof. unfold own_files. rewrite !elem_of_cons, elem_of_nil. tauto. Qed.

(** The files on disk when an execution ends without completing. *)
Lemma run_not_well_files env fs :
  all_well env = false ->
  fs ⊆ (run env fs).1 /\
  (run env fs).1 ⊆ list_to_set (own_files env) ∪ fs /\ (run env fs).2 <> Processed.
Proof.
  unfold all_well, run, script, seq, guarded, unguarded, create, nothing, finish, own_files,
    input_excel_file, input_pdf_file, output_excel_file, output_pdf_file, output_report_file.
  destruct env as [te tp bn ok1 pressed ok2 ok3 ok4 ok5 ok6 ok7 ok8 ok9 ok10]; simpl.
  destruct ok1; simpl; [|intros _; split_and!; [set_solver..|done]].
  destruct pressed; simpl; [|intros _; split_and!; [set_solver..|done]].
  destruct ok2; simpl; [|intros _; split_and!; [set_solver..|done]].
  destruct ok3; simpl; [|intros _; split_and!; [set_solver..|done]].
  destruct ok4; simpl; [|intros _; split_and!; [set_solver..|done]].
  destruct ok5; simpl; [|intros _; split_and!; [set_solver..|done]].
  destruct ok6; simpl; [|intros _; split_and!; [set_solver..|done]].
  destruct ok7; simpl; [|intros _; split_and!; [set_solver..|done]].
  destruct ok8; simpl; [|intros _; split_and!; [set_solver..|done]].
  destruct ok9; simpl; [|intros _; split_and!; [set_solver..|done]].
  destruct ok10; simpl; [done|intros _; split_and!; [set_solver..|done]].
Qed.

(** X23: an execution touches no file but its own five paths: every other
    file is on disk afterwards exactly if it was before; an execution that
    does not complete the processing deletes nothing at all; and the three
    generated files never share a path. *)
Theorem run_touches_only_own_files (env : environment) (fs : gset string) :
  let final := run env fs in
  (forall path, path ∉ own_files env -> (path ∈ final.1 <-> path ∈ fs)) /\
  (final.2 <> Processed -> fs ⊆ final.1) /\
  NoDup [output_excel_file env; output_pdf_file env; output_report_file env].
Proof.
  cbv zeta. split_and!; [| |apply outputs_distinct].
  - intros path Hpath. destruct (all_well env) eqn:E.
    + apply not_own_file in Hpath as (H1 & H2 & H3 & H4 & H5).
      rewrite (run_all_well env fs E). simpl. set_solver.
    + destruct (run_not_well_files env fs E) as (Hsub & Hsup & _). split; [|by apply Hsub].
      intros Hin. apply Hsup, elem_of_union in Hin as [Hown|?]; [|done].
      by apply elem_of_list_to_set in Hown.
  - destruct (all_well env) eqn:E; [by rewrite (run_all_well env fs E)|].
    intros _. by apply run_not_well_files.
Qed.

End MoreRunFacts.

Section LayoutFacts.
Import Analysis Layout.

Lemma max_length_from (column : list string) (start : nat) :
  let m := foldl (fun longest value =>
                    if Nat.ltb longest (String.length value) then String.length value
                    else longest) start column in
  start <= m /\ Forall (fun v => String.length v <= m) column /\
  (m = start \/ exists v, v ∈ column /\ m = String.length v).
Proof.
  cbv zeta. revert start. induction column as [|v column IH]; intros start; simpl.
  - split_and!; [lia|constructor|by left].
  - destruct (Nat.ltb_spec start (String.length v)) as [Hlt|Hge].
    + destruct (IH (String.length v)) as (H1 & H2 & H3). split_and!; [lia| |].
      * constructor; [lia|done].
      * right. destruct H3 as [->|(v' & Hv' & ->)]; [exists v|exists v']; split; (done || by left || by right).
    + destruct (IH start) as (H1 & H2 & H3). split_and!; [lia| |].
      * constructor; [lia|done].
      * destruct H3 as [->|(v' & Hv' & ->)]; [by left|]. right. exists v'. split; [by right|done].
Qed.

Lemma adjusted_width_fits (column : list string) :
  column <> [] ->
  Forall (fun v => String.length v + 2 <= adjusted_width column) column /\
  exists v, v ∈ column /\ adjusted_width column = String.length v + 2.
Proof.
  intros Hne. unfold adjusted_width, max_length.
  destruct (max_length_from column 0) as (_ & Hall & Hsome). split.
  - eapply Forall_impl; [exact Hall|]. intros v ?. simpl in *. lia.
  - destruct Hsome as [E|(v & Hv & E)].
    + destruct column as [|v column]; [done|]. exists v. split; [left|].
      inversion Hall as [|? ? Hv _]; subst. simpl in *. lia.
    + exists v. split; [done|]. simpl in *. lia.
Qed.

(** X24: the columns of a report sheet are fitted to their content: every
    cell of a column, the header included, is at least two characters shorter
    than the width the column is given, and the longest is exactly two
    shorter. *)
Theorem columns_fit_content (sh : sheet) :
  Forall (fun column =>
            Forall (fun v => String.length v + 2 <= adjusted_width column) column /\
            exists v, v ∈ column /\ adjusted_width column = String.length v + 2)
         (sheet_columns sh).
Proof.
  unfold sheet_columns. repeat (apply Forall_cons; split; [by apply adjusted_width_fits|]).
  by apply Forall_nil.
Qed.

End LayoutFacts.

Section ReportCoverage.
Import Py Text Excel Pdf Analysis.

Lemma every_key_has_a_sheet (key : condition_key) :
  exists name color_name color, (key, (name, color_name, color)) ∈ conditions.
Proof.
  unfold conditions. destruct key; do 3 eexists; rewrite !elem_of_cons; eauto 10.
Qed.

Lemma in_report_some_condition i c :
  in_report i c = true <-> exists key, c ∈ condition_components i key.
Proof.
  unfold in_report. rewrite existsb_exists. split.
  - intros (sh & Hsh%list_elem_of_In%elem_of_report & Hc%bool_decide_eq_true).
    destruct Hsh as (key & name & color_name & color & _ & ->).
    exists key. rewrite listed_sheet_of in Hc. by apply elem_of_sorted_elements.
  - intros (key & Hc). destruct (every_key_has_a_sheet key) as (name & color_name & color & Hk).
    exists (sheet_of i key name color_name). split.
    + by eapply list_elem_of_In, sheet_of_in_report.
    + apply bool_decide_eq_true. rewrite listed_sheet_of. by apply elem_of_sorted_elements.
Qed.

(** X25: the report leaves no identifier out and invents none: an
    identifier is in some row of the report exactly when it was seen in the
    document or in the spreadsheet. *)
Theorem report_lists_what_was_seen (i : inputs) (c : string) :
  in_report i c = true <-> c ∈ pdf_components i \/ c ∈ excel_components i.
Proof.
  rewrite in_report_some_condition. split.
  - intros [[] H]; simpl in H.
    + left. by apply repeated_pdf_observed.
    + right. by apply repeated_excel_declared.
    + left. by apply in_pdf_not_excel_spec in H as [? _].
    + right. by apply in_excel_not_pdf_spec in H as [? _].
    + by apply elem_of_normal in H as [? _].
  - intros H.
    destruct (decide (c ∈ repeated_pdf i)); [by exists key_repeated_pdf|].
    destruct (decide (c ∈ repeated_excel i)); [by exists key_repeated_excel|].
    destruct (decide (c ∈ in_pdf_not_excel i)); [by exists key_in_pdf_not_excel|].
    destruct (decide (c ∈ in_excel_not_pdf i)); [by exists key_in_excel_not_pdf|].
    exists key_normal. simpl. by apply elem_of_normal.
Qed.

End ReportCoverage.
